(** * EcoLens: the predator-prey-resource simulation of [ecolens.py]

    A shallow embedding of [run_sim] and of the stages of its daily loop,
    followed by the properties of the history it returns.

    Modelling conventions.
    - Python [float] values are modelled as exact rationals ([Q]); the decimal
      literals of the source are written as they are ([0.6], [0.05], ...).
      Rounding, infinities and NaN are outside the model.
    - Python [int] values are [Z]; an int converts to a float exactly.
    - The module-level generator of [random] is a state threaded through the
      run; the operations that [run_sim] uses are the interface [RandomGen].
    - [math.sin] is a parameter of the development.
    - [np.random.seed] is modelled by its domain: it raises [ValueError] on an
      int outside [[0, 2**32 - 1]] and has no other effect on the run.
    - Exceptions are the constructors of [exn]; a computation either returns
      a value and the next generator state, or raises.
    - The list [eaten_prey] of the source is never read and is left out. *)

From Stdlib Require Import QArith Qminmax Qabs Lqa ZArith Lia.
From stdpp Require Import gmap strings list fin_maps.

Open Scope Q_scope.

(** ** Python's arithmetic helpers on floats *)

Definition Qltb (x y : Q) : bool := negb (Qle_bool y x).

Notation "x <? y" := (Qltb x y) : Q_scope.
Notation "x >? y" := (Qltb y x) : Q_scope.

(** [max(a, b)]: [b] replaces [a] only when [b > a]. *)
Definition py_max (a b : Q) : Q := if b >? a then b else a.

(** [min(a, b)]: [b] replaces [a] only when [b < a]. *)
Definition py_min (a b : Q) : Q := if b <? a then b else a.

(** [sum(xs, start)]: a left fold. *)
Definition py_sum (start : Q) (xs : list Q) : Q := fold_left Qplus xs start.

(** [x or d] on floats: [d] when [x] is zero. *)
Definition py_or (x d : Q) : Q := if Qeq_bool x 0 then d else x.

(** [n or d] on ints. *)
Definition py_or_int (n d : Z) : Z := if (n =? 0)%Z then d else n.

(** [range(n)]. *)
Definition py_range (n : Z) : list Z := map Z.of_nat (seq 0 (Z.to_nat n)).

(** ** Exceptions and the monad of the run *)

Inductive exn : Set :=
| ValueError
| ZeroDivisionError
| KeyError.

Inductive result (A : Type) : Type :=
| Ok (a : A)
| Raise (e : exn).

Arguments Ok {A} a.
Arguments Raise {A} e.

(** A computation reads the generator state and either returns a value with
    the next state or raises. *)
Definition M (G A : Type) : Type := G -> result (A * G).

Definition ret {G A} (a : A) : M G A := fun g => Ok (a, g).

Definition bind {G A B} (m : M G A) (k : A -> M G B) : M G B :=
  fun g => match m g with
           | Ok (a, g') => k a g'
           | Raise e => Raise e
           end.

Definition raise {G A} (e : exn) : M G A := fun _ => Raise e.

Declare Scope sim_scope.
Delimit Scope sim_scope with sim.

Notation "x <- m ;; k" := (bind m (fun x => k))
  (at level 20, m at level 99, k at level 200) : sim_scope.
Notation "' pat <- m ;; k" := (bind m (fun x => match x with pat => k end))
  (at level 20, pat pattern, m at level 99, k at level 200) : sim_scope.
Notation "m ;; k" := (bind m (fun _ => k))
  (at level 100, k at level 200, right associativity) : sim_scope.

Open Scope sim_scope.

(** [x / y] on floats raises on a zero divisor. *)
Definition py_div {G} (x y : Q) : M G Q :=
  if Qeq_bool y 0 then raise ZeroDivisionError else ret (x / y).

(** ** The [random] module *)

(** The part of [random] that [run_sim] relies on: seeding with an int fixes
    the state; [random()] draws from [[0, 1)]; [shuffle] permutes. *)
Class RandomGen (G : Type) : Type := {
  seed_state : Z -> G;
  random : G -> Q * G;
  shuffle : forall {A : Type}, list A -> G -> list A * G;
  random_range : forall g, 0 <= (random g).1 /\ (random g).1 < 1;
  shuffle_perm : forall (A : Type) (l : list A) g, (shuffle l g).1 ≡ₚ l
}.

(** ** Data model *)

Record Individual : Type := mkIndividual {
  energy : Q;
  efficiency : Q
}.

(** History values: [day] and the counts are ints, the rest are floats. *)
Inductive value : Type :=
| VInt (n : Z)
| VFloat (x : Q).

Abbreviation history := (gmap string (list value)).

(** The keyword arguments of [run_sim]. *)
Record config : Type := mkConfig {
  days : Z;
  init_prey : Z;
  init_pred : Z;
  init_resource : Q;
  resource_regen : Q;
  prey_consumption : Q;
  pred_consumption : Q;
  prey_repro_thresh : Q;
  pred_repro_thresh : Q;
  prey_mut_rate : Q;
  pred_mut_rate : Q;
  shock_chance : Q;
  seed : Z
}.

(** The defaults of the signature. *)
Definition default_config : config :=
  {| days := 200; init_prey := 80; init_pred := 15;
     init_resource := 300.0; resource_regen := 8.0;
     prey_consumption := 1.0; pred_consumption := 2.0;
     prey_repro_thresh := 2.0; pred_repro_thresh := 5.0;
     prey_mut_rate := 0.05; pred_mut_rate := 0.03;
     shock_chance := 0.02; seed := 42 |}.

(** The constants of one reproduction-and-survival loop: the loop over the
    prey (lines 83-94) and the loop over the predators (lines 99-107) differ
    in these only. *)
Record species : Type := mkSpecies {
  repro_thresh : Q;
  repro_prob : Q;
  mut_rate : Q;
  child_energy : Q;
  repro_cost : Q;
  min_energy : Q;
  surv_base : Q;
  decay : Q
}.

Definition prey_species (cfg : config) : species :=
  {| repro_thresh := prey_repro_thresh cfg; repro_prob := 0.6;
     mut_rate := prey_mut_rate cfg; child_energy := 1.0; repro_cost := 0.6;
     min_energy := 0.1; surv_base := 0.7; decay := 0.9 |}.

Definition pred_species (cfg : config) : species :=
  {| repro_thresh := pred_repro_thresh cfg; repro_prob := 0.5;
     mut_rate := pred_mut_rate cfg; child_energy := 2.0; repro_cost := 0.5;
     min_energy := 0.5; surv_base := 0.6; decay := 0.92 |}.

(** The state of the daily loop. *)
Record sim_state : Type := mkState {
  st_prey : list Individual;
  st_predators : list Individual;
  st_resource : Q;
  st_history : history
}.

Definition PREY_CAP : nat := 2000.
Definition PRED_CAP : nat := 500.

Definition metric_keys : list string :=
  ["day"; "prey_count"; "pred_count"; "resource"; "prey_avg_eff"; "pred_avg_eff"].

(** The dict literal of the source. *)
Definition empty_history : history :=
  <["day" := []]> (<["prey_count" := []]> (<["pred_count" := []]>
  (<["resource" := []]> (<["prey_avg_eff" := []]> (<["pred_avg_eff" := []]> ∅))))).

Section Simulation.

Context {G : Type} `{RandomGen G}.

(** [math.sin]. *)
Variable sin : Q -> Q.

(** *** Calls into [random] and [numpy.random] *)

(** [random.seed(a)] (line 39). *)
Definition random_seed (a : Z) : M G unit := fun _ => Ok (tt, seed_state a).

(** [np.random.seed(a)] (line 40): it takes an int in [[0, 2**32 - 1]] and
    raises [ValueError] on any other int. *)
Definition np_random_seed (a : Z) : M G unit :=
  if ((0 <=? a) && (a <=? 2 ^ 32 - 1))%Z then ret tt else raise ValueError.

Definition random_random : M G Q := fun g => Ok (random g).

(** [random.uniform(a, b)] is [a + (b - a) * random()]. *)
Definition random_uniform (a b : Q) : M G Q :=
  r <- random_random ;; ret (a + (b - a) * r).

Definition random_shuffle {A} (l : list A) : M G (list A) :=
  fun g => Ok (shuffle l g).

(** *** Initial populations *)

(** [[Individual(energy=e, efficiency=random.uniform(0.6,1.0)) for _ in range(n)]]
    (lines 43-44). *)
Fixpoint spawn (n : nat) (e : Q) : M G (list Individual) :=
  match n with
  | O => ret []
  | S n' =>
      eff <- random_uniform 0.6 1.0 ;;
      rest <- spawn n' e ;;
      ret (mkIndividual e eff :: rest)
  end.

(** *** Resource allocation (lines 57-66) *)

Definition prey_need (cfg : config) (prey : list Individual) : Q :=
  py_sum 0 (map (fun p => prey_consumption cfg * (0.5 + efficiency p)) prey).

Definition available_to_prey (cfg : config) (resource : Q) (prey : list Individual) : Q :=
  py_min resource (prey_need cfg prey).

Definition shares (prey : list Individual) : list Q :=
  map (fun p => 0.5 + efficiency p) prey.

Definition total_shares (prey : list Individual) : Q :=
  py_or (py_sum 0 (shares prey)) 1.0.

(** The body of [for p, share in zip(prey, shares)]. *)
Definition feed_one (available total : Q) (p : Individual) (share : Q) : M G Individual :=
  q <- py_div share total ;;
  let got := available * q in
  ret (mkIndividual (energy p + got * efficiency p * 0.1) (efficiency p)).

Fixpoint feed (available total : Q) (ps : list (Individual * Q)) : M G (list Individual) :=
  match ps with
  | [] => ret []
  | (p, share) :: rest =>
      p' <- feed_one available total p share ;;
      rest' <- feed available total rest ;;
      ret (p' :: rest')
  end.

Definition allocate (cfg : config) (resource : Q) (prey : list Individual)
  : M G (list Individual) :=
  match prey with
  | [] => ret prey
  | _ :: _ =>
      feed (available_to_prey cfg resource prey) (total_shares prey)
           (zip prey (shares prey))
  end.

(** *** Predation (lines 68-79) *)

(** The loop [for pred in predators]: it stops at the first predator that
    finds the prey list empty; a successful predator removes the prey at the
    front with [prey.pop(0)]. Returns the predators and the remaining prey. *)
Fixpoint predation (cfg : config) (predators prey : list Individual)
  : M G (list Individual * list Individual) :=
  match predators with
  | [] => ret ([], prey)
  | pred :: rest =>
      match prey with
      | [] => ret (predators, prey)
      | target :: prey' =>
          r <- random_random ;;
          if r <? 0.3 + 0.4 * efficiency pred then
            '(rest', prey'') <- predation cfg rest prey' ;;
            ret (mkIndividual (energy pred + pred_consumption cfg * efficiency pred)
                              (efficiency pred) :: rest', prey'')
          else
            '(rest', prey'') <- predation cfg rest prey ;;
            ret (pred :: rest', prey'')
      end
  end.

(** *** Reproduction and survival (lines 81-107) *)

(** The reproduction branch for one individual: the offspring appended (if
    any) and the parent after the reproduction cost. *)
Definition reproduce_one (sp : species) (p : Individual)
  : M G (list Individual * Individual) :=
  if energy p >? repro_thresh sp then
    r <- random_random ;;
    if r <? repro_prob sp then
      u <- random_uniform (- mut_rate sp) (mut_rate sp) ;;
      let child_eff := py_max 0.05 (efficiency p + u) in
      ret ([mkIndividual (child_energy sp) child_eff],
           mkIndividual (energy p * repro_cost sp) (efficiency p))
    else ret ([], p)
  else ret ([], p).

(** The survival branch, on the energy left after reproduction. *)
Definition survive_one (sp : species) (p : Individual) : M G (list Individual) :=
  if energy p >? min_energy sp then
    r <- random_random ;;
    q <- py_div (energy p) (repro_thresh sp + 1) ;;
    if r <? surv_base sp + 0.2 * q then
      ret [mkIndividual (energy p * decay sp) (efficiency p)]
    else ret []
  else ret [].

Definition life_cycle (sp : species) (p : Individual) : M G (list Individual) :=
  '(children, p') <- reproduce_one sp p ;;
  survivors <- survive_one sp p' ;;
  ret (children ++ survivors).

(** The loop building [new_prey] (or [new_preds]). *)
Fixpoint reproduce (sp : species) (pop : list Individual) : M G (list Individual) :=
  match pop with
  | [] => ret []
  | p :: rest =>
      added <- life_cycle sp p ;;
      more <- reproduce sp rest ;;
      ret (added ++ more)
  end.

(** *** Resource dynamics (lines 112-120) *)

Definition regenerate (cfg : config) (resource available : Q) : Q :=
  py_max 0.0 (resource - available) + resource_regen cfg.

Definition shock (cfg : config) (resource : Q) : M G Q :=
  r <- random_random ;;
  if r <? shock_chance cfg then
    u <- random_uniform 0.3 0.7 ;;
    ret (resource * u)
  else ret resource.

Definition carrying (cfg : config) (day : Z) : M G Q :=
  x <- py_div (inject_Z day) 10.0 ;;
  ret (py_max 1.0 (init_resource cfg * (1 + 0.005 * sin x))).

Definition damp (resource cap : Q) : Q :=
  if resource >? cap then resource * 0.98 else resource.

Definition update_resource (cfg : config) (day : Z) (resource available : Q) : M G Q :=
  resource1 <- shock cfg (regenerate cfg resource available) ;;
  cap <- carrying cfg day ;;
  ret (damp resource1 cap).

(** *** Recording and caps (lines 122-134) *)

(** [history[key].append(v)]. *)
Definition append_metric (key : string) (v : value) (h : history) : M G history :=
  match h !! key with
  | Some l => ret (<[key := l ++ [v]]> h)
  | None => raise KeyError
  end.

(** [sum((p.efficiency for p in pop), 0.0) / (len(pop) or 1)] *)
Definition avg_eff (pop : list Individual) : M G Q :=
  py_div (py_sum 0.0 (map efficiency pop))
         (inject_Z (py_or_int (Z.of_nat (length pop)) 1)).

Definition record_statistics (day : Z) (prey predators : list Individual)
    (resource : Q) (h : history) : M G history :=
  h <- append_metric "day" (VInt day) h ;;
  h <- append_metric "prey_count" (VInt (Z.of_nat (length prey))) h ;;
  h <- append_metric "pred_count" (VInt (Z.of_nat (length predators))) h ;;
  h <- append_metric "resource" (VFloat resource) h ;;
  a <- avg_eff prey ;;
  h <- append_metric "prey_avg_eff" (VFloat a) h ;;
  a <- avg_eff predators ;;
  append_metric "pred_avg_eff" (VFloat a) h.

(** [if len(pop) > cap: pop = pop[:cap]] *)
Definition safety_cap (cap : nat) (pop : list Individual) : list Individual :=
  if (cap <? length pop)%nat then take cap pop else pop.

(** *** One day *)

(** The stages of a day up to the resource update: the populations that the
    statistics are taken from, and the new resource level. *)
Definition day_stages (cfg : config) (day : Z) (st : sim_state)
  : M G (list Individual * list Individual * Q) :=
  let available := available_to_prey cfg (st_resource st) (st_prey st) in
  prey <- allocate cfg (st_resource st) (st_prey st) ;;
  prey <- random_shuffle prey ;;
  predators <- random_shuffle (st_predators st) ;;
  '(predators, prey) <- predation cfg predators prey ;;
  new_prey <- reproduce (prey_species cfg) prey ;;
  new_preds <- reproduce (pred_species cfg) predators ;;
  resource <- update_resource cfg day (st_resource st) available ;;
  ret (new_prey, new_preds, resource).

Definition sim_day (cfg : config) (day : Z) (st : sim_state) : M G sim_state :=
  '(prey, predators, resource) <- day_stages cfg day st ;;
  h <- record_statistics day prey predators resource (st_history st) ;;
  ret {| st_prey := safety_cap PREY_CAP prey;
         st_predators := safety_cap PRED_CAP predators;
         st_resource := resource;
         st_history := h |}.

(** [for day in ds] *)
Fixpoint sim_loop (cfg : config) (ds : list Z) (st : sim_state) : M G sim_state :=
  match ds with
  | [] => ret st
  | day :: rest => st' <- sim_day cfg day st ;; sim_loop cfg rest st'
  end.

(** *** The run *)

(** The state at the head of the loop. *)
Definition init_state (cfg : config) : M G sim_state :=
  random_seed (seed cfg) ;;
  np_random_seed (seed cfg) ;;
  prey <- spawn (Z.to_nat (init_prey cfg)) 1.0 ;;
  predators <- spawn (Z.to_nat (init_pred cfg)) 2.0 ;;
  ret {| st_prey := prey; st_predators := predators;
         st_resource := init_resource cfg; st_history := empty_history |}.

Definition run_sim (cfg : config) : M G history :=
  st0 <- init_state cfg ;;
  st <- sim_loop cfg (py_range (days cfg)) st0 ;;
  ret (st_history st).

(** The state after the first [n] days of a run, which is the state that the
    stages of day [n] start from. *)
Definition run_days (cfg : config) (n : nat) : M G sim_state :=
  st0 <- init_state cfg ;;
  sim_loop cfg (py_range (Z.of_nat n)) st0.

End Simulation.

(** ** Vocabulary of the properties *)

(** Every value that the computation returns satisfies [P]. *)
Definition ensures {G A} (m : M G A) (P : A -> Prop) : Prop :=
  forall g a g', m g = Ok (a, g') -> P a.

(** The computation returns from every generator state. *)
Definition succeeds {G A} (m : M G A) : Prop :=
  forall g, exists a g', m g = Ok (a, g').

(** The seeds that [np.random.seed] accepts. *)
Definition seed_ok (cfg : config) : Prop := (0 <= seed cfg <= 2 ^ 32 - 1)%Z.

(** An individual whose efficiency is at least the floor [0.05]. *)
Definition viable (p : Individual) : Prop := 0.05 <= efficiency p.

(** What the allocation does to one prey: the efficiency is kept and the
    energy grows by the share of [available] converted at rate
    [efficiency * 0.1]. *)
Definition fed (available total : Q) (p p' : Individual) : Prop :=
  efficiency p' = efficiency p /\
  energy p' = energy p + available * ((0.5 + efficiency p) / total) * efficiency p * 0.1.

(** The average that [avg_eff] returns: its divisor is never zero. *)
Definition mean_eff (pop : list Individual) : Q :=
  py_sum 0.0 (map efficiency pop) / inject_Z (py_or_int (Z.of_nat (length pop)) 1).

(** What one day appends to the six sequences. *)
Record day_row : Type := mkRow {
  row_day : Z;
  row_prey_count : Z;
  row_pred_count : Z;
  row_resource : Q;
  row_prey_avg_eff : Q;
  row_pred_avg_eff : Q
}.

(** The row that a day appends. *)
Definition row_of (day : Z) (prey predators : list Individual) (resource : Q) : day_row :=
  {| row_day := day;
     row_prey_count := Z.of_nat (length prey);
     row_pred_count := Z.of_nat (length predators);
     row_resource := resource;
     row_prey_avg_eff := mean_eff prey;
     row_pred_avg_eff := mean_eff predators |}.

Definition dict6 (d pc qc r pa qa : list value) : history :=
  <["day" := d]> (<["prey_count" := pc]> (<["pred_count" := qc]>
  (<["resource" := r]> (<["prey_avg_eff" := pa]> (<["pred_avg_eff" := qa]> ∅))))).

(** The history holding the given rows, oldest first. *)
Definition history_of (rows : list day_row) : history :=
  dict6 (VInt ∘ row_day <$> rows)
        (VInt ∘ row_prey_count <$> rows)
        (VInt ∘ row_pred_count <$> rows)
        (VFloat ∘ row_resource <$> rows)
        (VFloat ∘ row_prey_avg_eff <$> rows)
        (VFloat ∘ row_pred_avg_eff <$> rows).

(** The state that a day leaves, from what its stages return. *)
Definition end_of_day (day : Z) (rows : list day_row)
    (out : list Individual * list Individual * Q) : sim_state :=
  let '(prey, predators, resource) := out in
  {| st_prey := safety_cap PREY_CAP prey;
     st_predators := safety_cap PRED_CAP predators;
     st_resource := resource;
     st_history := history_of (rows ++ [row_of day prey predators resource]) |}.

(** A state whose history is a table of rows and whose populations satisfy [I]. *)
Definition state_inv (I : list Individual -> list Individual -> Prop)
    (rows : list day_row) (st : sim_state) : Prop :=
  st_history st = history_of rows /\ I (st_prey st) (st_predators st).

(** The day that leads from [st] to [st'] appended [v] under [key]. *)
Definition appended (key : string) (v : value) (st st' : sim_state) : Prop :=
  exists l, st_history st !! key = Some l /\ st_history st' !! key = Some (l ++ [v]).

(** The count and the average recorded for one population on one day: the
    average is zero for an empty population and at least [0.05] otherwise. *)
Definition avg_ok (count avg : value) : Prop :=
  exists n x, count = VInt n /\ avg = VFloat x /\
              (n = 0%Z -> x == 0) /\ (n <> 0%Z -> 0.05 <= x).

Definition row_avg_ok (row : day_row) : Prop :=
  avg_ok (VInt (row_prey_count row)) (VFloat (row_prey_avg_eff row)) /\
  avg_ok (VInt (row_pred_count row)) (VFloat (row_pred_avg_eff row)).

(** ** Vocabulary of the further properties *)

(** [R] relates every entry of [l] to the next one. *)
Definition steps {A} (R : A -> A -> Prop) (l : list A) : Prop :=
  forall k a b, l !! k = Some a -> l !! S k = Some b -> R a b.

(** What [main] passes to [run_sim] (lines 197-200): the four command-line
    values, the other parameters at their defaults. *)
Definition main_config (arg_days arg_init_prey arg_init_pred arg_seed : Z) : config :=
  {| days := arg_days; init_prey := arg_init_prey; init_pred := arg_init_pred;
     init_resource := 300.0; resource_regen := 8.0;
     prey_consumption := 1.0; pred_consumption := 2.0;
     prey_repro_thresh := 2.0; pred_repro_thresh := 5.0;
     prey_mut_rate := 0.05; pred_mut_rate := 0.03;
     shock_chance := 0.02; seed := arg_seed |}.

(** The configuration [cfg] with another number of days. *)
Definition with_days (cfg : config) (n : Z) : config :=
  {| days := n; init_prey := init_prey cfg; init_pred := init_pred cfg;
     init_resource := init_resource cfg; resource_regen := resource_regen cfg;
     prey_consumption := prey_consumption cfg;
     pred_consumption := pred_consumption cfg;
     prey_repro_thresh := prey_repro_thresh cfg;
     pred_repro_thresh := pred_repro_thresh cfg;
     prey_mut_rate := prey_mut_rate cfg; pred_mut_rate := pred_mut_rate cfg;
     shock_chance := shock_chance cfg; seed := seed cfg |}.

(** The size of the list that a population enters a day with, from the rows
    recorded so far: the initial size before day 0, and afterwards the last
    recorded count cut at the cap. *)
Definition carried_size (cap : nat) (init : Z) (count : day_row -> Z)
    (rows : list day_row) : nat :=
  match last rows with
  | None => Z.to_nat init
  | Some row => Nat.min cap (Z.to_nat (count row))
  end.

(** From one recorded count to the next: at most twice the count carried
    forward. *)
Definition doubles (cap : Z) (a b : Z) : Prop := (0 <= b <= 2 * Z.min a cap)%Z.

(** The recorded counts of both populations, day after day. *)
Definition growth_rows (cfg : config) (rows : list day_row) : Prop :=
  (forall r, rows !! O = Some r ->
     (0 <= row_prey_count r <= 2 * Z.max 0 (init_prey cfg))%Z /\
     (0 <= row_pred_count r <= 2 * Z.max 0 (init_pred cfg))%Z) /\
  steps (fun a b => doubles 2000 (row_prey_count a) (row_prey_count b) /\
                    doubles 500 (row_pred_count a) (row_pred_count b)) rows.

(** [x ** n] for a float [x] and a natural number [n]. *)
Fixpoint py_pow (x : Q) (n : nat) : Q :=
  match n with
  | O => 1
  | S n' => x * py_pow x n'
  end.


(** What predation does to one predator: the efficiency is kept and the
    energy is either kept or raised by [pred_consumption * efficiency]. *)
Definition hunted (cfg : config) (p p' : Individual) : Prop :=
  efficiency p' = efficiency p /\
  (energy p' = energy p \/
   energy p' = energy p + pred_consumption cfg * efficiency p).

(** ** A scripted generator

    A generator that replays a list of draws (then returns [0] for ever) and
    leaves lists in their order when shuffling (the only outcome for a list
    of at most one element). Draws outside [[0, 1)] are replaced by [0]. The
    draws after [seed(a)] are [book a]. *)

Definition in_unit (q : Q) : bool := Qle_bool 0 q && (q <? 1).

Definition script_random (g : list Q) : Q * list Q :=
  match g with
  | [] => (0, [])
  | q :: g' => (if in_unit q then q else 0, g')
  end.

Lemma script_random_range (g : list Q) :
  0 <= (script_random g).1 /\ (script_random g).1 < 1.
Proof.
  destruct g as [|q g]; simpl; [lra|].
  unfold in_unit, Qltb. destruct (Qle_bool 0 q) eqn:E0; simpl; [|lra].
  destruct (Qle_bool 1 q) eqn:E1; simpl; [lra|].
  apply Qle_bool_iff in E0. split; [exact E0|].
  apply Qnot_le_lt. intros Hle. apply Qle_bool_iff in Hle. congruence.
Qed.

#[local] Instance scripted (book : Z -> list Q) : RandomGen (list Q) := {|
  seed_state := book;
  random := script_random;
  shuffle := fun A l g => (l, g);
  random_range := script_random_range;
  shuffle_perm := fun A l g => reflexivity l
|}.

(** A polynomial stand-in for [math.sin], exact at [0]. *)
Definition sin_series (x : Q) : Q := x - x * x * x / 6.

(** ** Concrete runs

    Configurations and scripted draws on which the run is evaluated; the
    generator state before the call is the empty script in each case. *)

(** Three days with three prey and two predators, the other parameters at
    their defaults. *)
Definition demo_config : config :=
  {| days := 3; init_prey := 3; init_pred := 2;
     init_resource := 300.0; resource_regen := 8.0;
     prey_consumption := 1.0; pred_consumption := 2.0;
     prey_repro_thresh := 2.0; pred_repro_thresh := 5.0;
     prey_mut_rate := 0.05; pred_mut_rate := 0.03;
     shock_chance := 0.02; seed := 42 |}.

Definition demo_book (a : Z) : list Q :=
  [0.5; 0.25; 0.75; 0.1; 0.9; 0.4; 0.8; 0.3; 0.6; 0.2;
   0.7; 0.15; 0.55; 0.35; 0.95; 0.05; 0.45; 0.65; 0.85; 0.5;
   0.5; 0.25; 0.75; 0.1; 0.9; 0.4; 0.8; 0.3; 0.6; 0.2;
   0.7; 0.15; 0.55; 0.35; 0.95; 0.05; 0.45; 0.65; 0.85; 0.5].

Definition outcome_or {A} (r : result (A * list Q)) (d : A) : A * list Q :=
  match r with
  | Ok x => x
  | Raise _ => (d, [])
  end.

Definition empty_state : sim_state :=
  {| st_prey := []; st_predators := []; st_resource := 0; st_history := ∅ |}.

Definition demo_run : history * list Q :=
  Eval vm_compute in
    outcome_or (run_sim (H := scripted demo_book) sin_series demo_config []) ∅.

(** The state at the head of the loop of the demo run, and what the stages
    of day 0 return from it. *)
Definition demo_start : sim_state * list Q :=
  Eval vm_compute in
    outcome_or (run_days (H := scripted demo_book) sin_series demo_config 0 []) empty_state.

Definition demo_day0 : list Individual * list Individual * Q * list Q :=
  Eval vm_compute in
    outcome_or (day_stages (H := scripted demo_book) sin_series demo_config 0
                  demo_start.1 demo_start.2) ([], [], 0).

(** Two days that start with 501 predators and no prey; every draw is [0],
    so every predator survives day 0. *)
Definition crowded_config : config :=
  {| days := 2; init_prey := 0; init_pred := 501;
     init_resource := 300.0; resource_regen := 8.0;
     prey_consumption := 1.0; pred_consumption := 2.0;
     prey_repro_thresh := 2.0; pred_repro_thresh := 5.0;
     prey_mut_rate := 0.05; pred_mut_rate := 0.03;
     shock_chance := 0.02; seed := 42 |}.

Definition no_draws (a : Z) : list Q := [].

Definition crowded_start : sim_state * list Q :=
  Eval vm_compute in
    outcome_or (run_days (H := scripted no_draws) sin_series crowded_config 0 []) empty_state.

(** What the stages of day 0 return from there, and the state that the day
    leaves. *)
Definition crowded_stages : list Individual * list Individual * Q * list Q :=
  Eval vm_compute in
    outcome_or (day_stages (H := scripted no_draws) sin_series crowded_config 0
                  crowded_start.1 crowded_start.2) ([], [], 0).

Definition crowded_next : sim_state * list Q :=
  (end_of_day 0 [] crowded_stages.1, crowded_stages.2).

(** Every field that the spec constrains, [days] apart, is out of its range. *)
Definition rogue_config : config :=
  {| days := 1; init_prey := -3; init_pred := -1;
     init_resource := -5.0; resource_regen := 8.0;
     prey_consumption := 1.0; pred_consumption := 2.0;
     prey_repro_thresh := 2.0; pred_repro_thresh := 5.0;
     prey_mut_rate := 0.05; pred_mut_rate := 0.03;
     shock_chance := 2.0; seed := 42 |}.

(** The first draws of CPython's [random.random()] after [random.seed(a)],
    for the two seeds used below, as exact rationals (each is a multiple of
    [2**-53]): 0.6394 and 0.0250 for the seed 42; 0.9784, 0.0545, 0.7257,
    0.4839 and 0.9417 for the seed 52. *)
Definition mersenne_draws (a : Z) : list Q :=
  if (a =? 42)%Z then
    [5759444582531269 # 9007199254740992; 225276855802115 # 9007199254740992]
  else if (a =? 52)%Z then
    [4406118575595735 # 4503599627370496; 122774104394173 # 2251799813685248;
     6536179714155445 # 9007199254740992; 4358239133869595 # 9007199254740992;
     2120572228008783 # 2251799813685248]
  else [].

Definition rogue_run : history * list Q :=
  Eval vm_compute in
    outcome_or (run_sim (H := scripted mersenne_draws) sin_series rogue_config []) ∅.

(** An empty ecosystem whose pool loses one unit a day. *)
Definition drain_config : config :=
  {| days := 1; init_prey := 0; init_pred := 0;
     init_resource := 0.0; resource_regen := -1.0;
     prey_consumption := 1.0; pred_consumption := 2.0;
     prey_repro_thresh := 2.0; pred_repro_thresh := 5.0;
     prey_mut_rate := 0.05; pred_mut_rate := 0.03;
     shock_chance := 0.02; seed := 42 |}.

Definition drain_run : history * list Q :=
  Eval vm_compute in
    outcome_or (run_sim (H := scripted mersenne_draws) sin_series drain_config []) ∅.

(** One prey that reproduces on day 0: the defaults, with a reproduction
    threshold of 0.5 and the seed 52. The draws are, in order: the efficiency
    of the prey, its reproduction, the mutation of the child, its survival,
    the shock. *)
Definition drift_config : config :=
  {| days := 1; init_prey := 1; init_pred := 0;
     init_resource := 300.0; resource_regen := 8.0;
     prey_consumption := 1.0; pred_consumption := 2.0;
     prey_repro_thresh := 0.5; pred_repro_thresh := 5.0;
     prey_mut_rate := 0.05; pred_mut_rate := 0.03;
     shock_chance := 0.02; seed := 52 |}.

Definition drift_run : history * list Q :=
  Eval vm_compute in
    outcome_or (run_sim (H := scripted mersenne_draws) sin_series drift_config []) ∅.

(** No prey and two predators, for three days. *)
Definition barren_config : config :=
  {| days := 3; init_prey := 0; init_pred := 2;
     init_resource := 300.0; resource_regen := 8.0;
     prey_consumption := 1.0; pred_consumption := 2.0;
     prey_repro_thresh := 2.0; pred_repro_thresh := 5.0;
     prey_mut_rate := 0.05; pred_mut_rate := 0.03;
     shock_chance := 0.02; seed := 42 |}.

(** The barren run with a seed that [numpy] refuses. *)
Definition barren_bad_seed : config :=
  {| days := 3; init_prey := 0; init_pred := 2;
     init_resource := 300.0; resource_regen := 8.0;
     prey_consumption := 1.0; pred_consumption := 2.0;
     prey_repro_thresh := 2.0; pred_repro_thresh := 5.0;
     prey_mut_rate := 0.05; pred_mut_rate := 0.03;
     shock_chance := 0.02; seed := -1 |}.

(** No prey, one predator, and a predator reproduction threshold of [-1]. *)
Definition barren_zero_div : config :=
  {| days := 1; init_prey := 0; init_pred := 1;
     init_resource := 300.0; resource_regen := 8.0;
     prey_consumption := 1.0; pred_consumption := 2.0;
     prey_repro_thresh := 2.0; pred_repro_thresh := -1.0;
     prey_mut_rate := 0.05; pred_mut_rate := 0.03;
     shock_chance := 0.02; seed := 42 |}.

(** The defaults with no day to run. *)
Definition idle_config : config :=
  {| days := 0; init_prey := 80; init_pred := 15;
     init_resource := 300.0; resource_regen := 8.0;
     prey_consumption := 1.0; pred_consumption := 2.0;
     prey_repro_thresh := 2.0; pred_repro_thresh := 5.0;
     prey_mut_rate := 0.05; pred_mut_rate := 0.03;
     shock_chance := 0.02; seed := 42 |}.

(** No day to run and a seed that [numpy] refuses. *)
Definition idle_bad_seed : config :=
  {| days := 0; init_prey := 80; init_pred := 15;
     init_resource := 300.0; resource_regen := 8.0;
     prey_consumption := 1.0; pred_consumption := 2.0;
     prey_repro_thresh := 2.0; pred_repro_thresh := 5.0;
     prey_mut_rate := 0.05; pred_mut_rate := 0.03;
     shock_chance := 0.02; seed := -1 |}.

(** The predation of day 0 of the demo run, on the populations as spawned. *)
Definition demo_hunt : list Individual * list Individual * list Q :=
  Eval vm_compute in
    outcome_or (predation (H := scripted demo_book) demo_config
                  (st_predators demo_start.1) (st_prey demo_start.1) demo_start.2)
               ([], []).

(** The state that day 0 of the demo run leaves. *)
Definition demo_next : sim_state * list Q :=
  Eval vm_compute in
    outcome_or (run_days (H := scripted demo_book) sin_series demo_config 1 []) empty_state.

(** No prey and two predators for twenty days; every draw is [0], so a
    predator survives whenever its energy allows it. *)
Definition starved_config : config :=
  {| days := 20; init_prey := 0; init_pred := 2;
     init_resource := 300.0; resource_regen := 8.0;
     prey_consumption := 1.0; pred_consumption := 2.0;
     prey_repro_thresh := 2.0; pred_repro_thresh := 5.0;
     prey_mut_rate := 0.05; pred_mut_rate := 0.03;
     shock_chance := 0.02; seed := 42 |}.

Definition starved_run : history * list Q :=
  Eval vm_compute in
    outcome_or (run_sim (H := scripted no_draws) sin_series starved_config []) ∅.

(** The first day alone of the demo run. *)
Definition demo_first_day : history * list Q :=
  Eval vm_compute in
    outcome_or (run_sim (H := scripted demo_book) sin_series (with_days demo_config 1) []) ∅.

(** The defaults with a predator reproduction threshold of [-1]. *)
Definition fragile_pred_config : config :=
  {| days := 200; init_prey := 80; init_pred := 15;
     init_resource := 300.0; resource_regen := 8.0;
     prey_consumption := 1.0; pred_consumption := 2.0;
     prey_repro_thresh := 2.0; pred_repro_thresh := -1;
     prey_mut_rate := 0.05; pred_mut_rate := 0.03;
     shock_chance := 0.02; seed := 42 |}.

(** The defaults with a prey reproduction threshold of [-1]. *)
Definition fragile_prey_config : config :=
  {| days := 200; init_prey := 80; init_pred := 15;
     init_resource := 300.0; resource_regen := 8.0;
     prey_consumption := 1.0; pred_consumption := 2.0;
     prey_repro_thresh := -1; pred_repro_thresh := 5.0;
     prey_mut_rate := 0.05; pred_mut_rate := 0.03;
     shock_chance := 0.02; seed := 42 |}.

(** ** A program logic for computations *)

Section Logic.

Context {G : Type}.

Lemma bind_Ok {A B} (m : M G A) (k : A -> M G B) g b g' :
  bind m k g = Ok (b, g') <->
  exists a g1, m g = Ok (a, g1) /\ k a g1 = Ok (b, g').
Proof.
  unfold bind. split.
  - destruct (m g) as [[a g1]|e]; [|discriminate]. eauto.
  - intros (a & g1 & -> & Hk). exact Hk.
Qed.

Lemma ensures_ret {A} (a : A) (P : A -> Prop) : P a -> ensures (ret a : M G A) P.
Proof. intros HP g a' g' [= <- _]. exact HP. Qed.

Lemma ensures_raise {A} e (P : A -> Prop) : ensures (raise e : M G A) P.
Proof. intros g a g' [=]. Qed.

Lemma ensures_bind {A B} (m : M G A) (k : A -> M G B) (P : A -> Prop) (Q : B -> Prop) :
  ensures m P -> (forall a, P a -> ensures (k a) Q) -> ensures (bind m k) Q.
Proof.
  intros Hm Hk g b g' (a & g1 & Ha & Hb)%bind_Ok.
  eapply Hk; [eapply Hm|]; eauto.
Qed.

Lemma ensures_mono {A} (m : M G A) (P Q : A -> Prop) :
  ensures m P -> (forall a, P a -> Q a) -> ensures m Q.
Proof. intros Hm HPQ g a g' Ha. eauto. Qed.

Lemma ensures_and {A} (m : M G A) (P Q : A -> Prop) :
  ensures m P -> ensures m Q -> ensures m (fun a => P a /\ Q a).
Proof. intros HP HQ g a g' Ha. split; eauto. Qed.

Lemma ensures_any {A} (m : M G A) : ensures m (fun _ => True).
Proof. intros g a g' _. exact I. Qed.

Lemma succeeds_ret {A} (a : A) : succeeds (ret a : M G A).
Proof. intros g. eauto. Qed.

Lemma succeeds_bind {A B} (m : M G A) (k : A -> M G B) (P : A -> Prop) :
  succeeds m -> ensures m P -> (forall a, P a -> succeeds (k a)) ->
  succeeds (bind m k).
Proof.
  intros Hm HP Hk g. destruct (Hm g) as (a & g1 & Ha).
  destruct (Hk a (HP _ _ _ Ha) g1) as (b & g2 & Hb).
  exists b, g2. apply bind_Ok. eauto.
Qed.

Lemma succeeds_bind' {A B} (m : M G A) (k : A -> M G B) :
  succeeds m -> (forall a, succeeds (k a)) -> succeeds (bind m k).
Proof.
  intros Hm Hk. apply succeeds_bind with (P := fun _ => True); auto using ensures_any.
Qed.

End Logic.

(** ** Facts about the arithmetic helpers *)

Lemma Qltb_lt (x y : Q) : (x <? y) = true <-> x < y.
Proof.
  unfold Qltb. rewrite negb_true_iff. split.
  - intros E. apply Qnot_le_lt. intros Hle. apply Qle_bool_iff in Hle. congruence.
  - intros Hlt. destruct (Qle_bool y x) eqn:E; [|reflexivity].
    apply Qle_bool_iff in E. lra.
Qed.

Lemma Qltb_ge (x y : Q) : (x <? y) = false <-> y <= x.
Proof.
  unfold Qltb. rewrite negb_false_iff. apply Qle_bool_iff.
Qed.

Lemma Qeq_bool_false (x y : Q) : ~ x == y -> Qeq_bool x y = false.
Proof.
  intros Hne. destruct (Qeq_bool x y) eqn:E; [|reflexivity].
  apply Qeq_bool_iff in E. contradiction.
Qed.

Lemma py_max_l (a b : Q) : a <= py_max a b.
Proof.
  unfold py_max. destruct (b >? a) eqn:E; [|lra].
  apply Qltb_lt in E. lra.
Qed.

Lemma py_max_r (a b : Q) : b <= py_max a b.
Proof.
  unfold py_max. destruct (b >? a) eqn:E; [lra|].
  apply Qltb_ge in E. exact E.
Qed.

Lemma py_min_l (a b : Q) : py_min a b <= a.
Proof.
  unfold py_min. destruct (b <? a) eqn:E; [|lra].
  apply Qltb_lt in E. lra.
Qed.

Lemma py_min_r (a b : Q) : py_min a b <= b.
Proof.
  unfold py_min. destruct (b <? a) eqn:E; [lra|].
  apply Qltb_ge in E. exact E.
Qed.

Lemma py_or_nonzero (x d : Q) : ~ d == 0 -> ~ py_or x d == 0.
Proof.
  intros Hd. unfold py_or. destruct (Qeq_bool x 0) eqn:E; [exact Hd|].
  intros Hx. apply Qeq_bool_iff in Hx. congruence.
Qed.

Lemma py_or_int_nonzero (n : Z) : py_or_int n 1 <> 0%Z.
Proof.
  unfold py_or_int. destruct (n =? 0)%Z eqn:E; [lia|].
  apply Z.eqb_neq in E. exact E.
Qed.

Lemma py_sum_shift (s : Q) (xs : list Q) : py_sum s xs == s + py_sum 0 xs.
Proof.
  unfold py_sum. revert s. induction xs as [|x xs IH]; intros s; simpl.
  - lra.
  - rewrite (IH (s + x)), (IH (0 + x)). lra.
Qed.

Lemma py_sum_cons (s x : Q) (xs : list Q) : py_sum s (x :: xs) == x + py_sum s xs.
Proof.
  change (py_sum s (x :: xs)) with (py_sum (s + x) xs).
  rewrite (py_sum_shift (s + x)), (py_sum_shift s). lra.
Qed.

(** A sum of terms that are all at least [c]. *)
Lemma py_sum_lower (c s : Q) (xs : list Q) :
  Forall (fun x => c <= x) xs ->
  s + c * inject_Z (Z.of_nat (length xs)) <= py_sum s xs.
Proof.
  induction 1 as [|x xs Hx _ IH].
  - unfold py_sum. cbn [fold_left length Z.of_nat].
    change (inject_Z (Z.of_nat 0)) with 0. lra.
  - rewrite py_sum_cons. cbn [length]. rewrite Nat2Z.inj_succ.
    unfold Z.succ. rewrite inject_Z_plus. change (inject_Z 1) with 1. nra.
Qed.


Lemma py_range_length (n : Z) : length (py_range n) = Z.to_nat n.
Proof. unfold py_range. rewrite length_map, length_seq. reflexivity. Qed.

Lemma py_range_nonpos (n : Z) : (n <= 0)%Z -> py_range n = [].
Proof.
  intros Hn. unfold py_range. replace (Z.to_nat n) with O by lia. reflexivity.
Qed.

Lemma py_range_succ (n : nat) :
  py_range (Z.of_nat (S n)) = py_range (Z.of_nat n) ++ [Z.of_nat n].
Proof.
  unfold py_range. rewrite !Nat2Z.id, seq_S, map_app. reflexivity.
Qed.

(** ** The history as a table of daily rows *)

Lemma history_of_nil : history_of [] = empty_history.
Proof. reflexivity. Qed.

Ltac dict6_lookup :=
  unfold dict6;
  repeat (first [ rewrite lookup_insert_eq; reflexivity
                | rewrite lookup_insert_ne by discriminate ]).

Lemma dict6_day d pc qc r pa qa : dict6 d pc qc r pa qa !! "day" = Some d.
Proof. dict6_lookup. Qed.
Lemma dict6_prey_count d pc qc r pa qa : dict6 d pc qc r pa qa !! "prey_count" = Some pc.
Proof. dict6_lookup. Qed.
Lemma dict6_pred_count d pc qc r pa qa : dict6 d pc qc r pa qa !! "pred_count" = Some qc.
Proof. dict6_lookup. Qed.
Lemma dict6_resource d pc qc r pa qa : dict6 d pc qc r pa qa !! "resource" = Some r.
Proof. dict6_lookup. Qed.
Lemma dict6_prey_avg_eff d pc qc r pa qa : dict6 d pc qc r pa qa !! "prey_avg_eff" = Some pa.
Proof. dict6_lookup. Qed.
Lemma dict6_pred_avg_eff d pc qc r pa qa : dict6 d pc qc r pa qa !! "pred_avg_eff" = Some qa.
Proof. dict6_lookup. Qed.

Lemma dict6_other d pc qc r pa qa (k : string) :
  k ∉ metric_keys -> dict6 d pc qc r pa qa !! k = None.
Proof.
  intros Hk. unfold dict6, metric_keys in *.
  rewrite !lookup_insert_ne, lookup_empty; [reflexivity|..];
    intros <-; apply Hk; set_solver.
Qed.

Lemma dict6_dom d pc qc r pa qa :
  dom (dict6 d pc qc r pa qa) = list_to_set metric_keys.
Proof.
  unfold dict6, metric_keys. rewrite !dom_insert_L, dom_empty_L. set_solver.
Qed.

Ltac dict6_update :=
  unfold dict6; apply map_eq; intros k;
  rewrite !lookup_insert; repeat case_decide; congruence.

Lemma dict6_set_day d pc qc r pa qa x :
  <["day" := x]> (dict6 d pc qc r pa qa) = dict6 x pc qc r pa qa.
Proof. dict6_update. Qed.
Lemma dict6_set_prey_count d pc qc r pa qa x :
  <["prey_count" := x]> (dict6 d pc qc r pa qa) = dict6 d x qc r pa qa.
Proof. dict6_update. Qed.
Lemma dict6_set_pred_count d pc qc r pa qa x :
  <["pred_count" := x]> (dict6 d pc qc r pa qa) = dict6 d pc x r pa qa.
Proof. dict6_update. Qed.
Lemma dict6_set_resource d pc qc r pa qa x :
  <["resource" := x]> (dict6 d pc qc r pa qa) = dict6 d pc qc x pa qa.
Proof. dict6_update. Qed.
Lemma dict6_set_prey_avg_eff d pc qc r pa qa x :
  <["prey_avg_eff" := x]> (dict6 d pc qc r pa qa) = dict6 d pc qc r x qa.
Proof. dict6_update. Qed.
Lemma dict6_set_pred_avg_eff d pc qc r pa qa x :
  <["pred_avg_eff" := x]> (dict6 d pc qc r pa qa) = dict6 d pc qc r pa x.
Proof. dict6_update. Qed.

Lemma history_of_snoc rows row :
  history_of (rows ++ [row]) =
  dict6 ((VInt ∘ row_day <$> rows) ++ [VInt (row_day row)])
        ((VInt ∘ row_prey_count <$> rows) ++ [VInt (row_prey_count row)])
        ((VInt ∘ row_pred_count <$> rows) ++ [VInt (row_pred_count row)])
        ((VFloat ∘ row_resource <$> rows) ++ [VFloat (row_resource row)])
        ((VFloat ∘ row_prey_avg_eff <$> rows) ++ [VFloat (row_prey_avg_eff row)])
        ((VFloat ∘ row_pred_avg_eff <$> rows) ++ [VFloat (row_pred_avg_eff row)]).
Proof. unfold history_of. rewrite !fmap_app. reflexivity. Qed.

(** ** Properties of the stages *)

Section Stages.

Context {G : Type} `{RandomGen G}.

Variable sin : Q -> Q.

Lemma bind_ret_l {A B} (a : A) (k : A -> M G B) : bind (ret a) k = k a.
Proof. reflexivity. Qed.

(** *** Draws *)

Lemma random_random_ensures : ensures random_random (fun r => 0 <= r /\ r < 1).
Proof.
  intros g r g' [= Hr]. pose proof (random_range g) as Hg.
  rewrite Hr in Hg. exact Hg.
Qed.

Lemma random_random_succeeds : succeeds random_random.
Proof. intros g. unfold random_random. destruct (random g); eauto. Qed.

Lemma random_uniform_ensures (a b : Q) :
  a <= b -> ensures (random_uniform a b) (fun u => a <= u /\ u <= b).
Proof.
  intros Hab. unfold random_uniform.
  eapply ensures_bind; [apply random_random_ensures|].
  intros r [H0 H1]. apply ensures_ret. nra.
Qed.

Lemma random_uniform_succeeds (a b : Q) : succeeds (random_uniform a b).
Proof.
  apply succeeds_bind'; [apply random_random_succeeds|].
  intros r. apply succeeds_ret.
Qed.

Lemma random_shuffle_ensures {A} (l : list A) :
  ensures (random_shuffle l) (fun l' => l' ≡ₚ l).
Proof.
  intros g l' g' [= Hl]. pose proof (shuffle_perm A l g) as Hp.
  rewrite Hl in Hp. exact Hp.
Qed.

Lemma random_shuffle_succeeds {A} (l : list A) : succeeds (random_shuffle l).
Proof. intros g. unfold random_shuffle. destruct (shuffle l g); eauto. Qed.

(** *** Division *)

Lemma py_div_nonzero (x y : Q) : ~ y == 0 -> py_div (G := G) x y = ret (x / y).
Proof. intros Hy. unfold py_div. rewrite Qeq_bool_false by exact Hy. reflexivity. Qed.

Lemma py_div_zero (x y : Q) : y == 0 -> py_div (G := G) x y = raise ZeroDivisionError.
Proof.
  intros Hy. unfold py_div. apply Qeq_bool_iff in Hy. rewrite Hy. reflexivity.
Qed.

(** *** Recording *)

Lemma avg_eff_mean (pop : list Individual) : avg_eff (G := G) pop = ret (mean_eff pop).
Proof.
  unfold avg_eff. apply py_div_nonzero.
  pose proof (py_or_int_nonzero (Z.of_nat (length pop))) as Hn.
  intros Hq. apply Hn. unfold Qeq in Hq. simpl in Hq. lia.
Qed.

Lemma append_metric_Some key v (h : history) l :
  h !! key = Some l -> append_metric (G := G) key v h = ret (<[key := l ++ [v]]> h).
Proof. intros Hl. unfold append_metric. rewrite Hl. reflexivity. Qed.

Lemma record_statistics_rows day prey predators resource rows :
  record_statistics (G := G) day prey predators resource (history_of rows) =
  ret (history_of (rows ++ [row_of day prey predators resource])).
Proof.
  rewrite history_of_snoc. unfold record_statistics, history_of.
  rewrite (append_metric_Some _ _ _ _ (dict6_day _ _ _ _ _ _)), bind_ret_l, dict6_set_day.
  rewrite (append_metric_Some _ _ _ _ (dict6_prey_count _ _ _ _ _ _)), bind_ret_l,
    dict6_set_prey_count.
  rewrite (append_metric_Some _ _ _ _ (dict6_pred_count _ _ _ _ _ _)), bind_ret_l,
    dict6_set_pred_count.
  rewrite (append_metric_Some _ _ _ _ (dict6_resource _ _ _ _ _ _)), bind_ret_l,
    dict6_set_resource.
  rewrite avg_eff_mean, bind_ret_l.
  rewrite (append_metric_Some _ _ _ _ (dict6_prey_avg_eff _ _ _ _ _ _)), bind_ret_l,
    dict6_set_prey_avg_eff.
  rewrite avg_eff_mean, bind_ret_l.
  rewrite (append_metric_Some _ _ _ _ (dict6_pred_avg_eff _ _ _ _ _ _)),
    dict6_set_pred_avg_eff.
  reflexivity.
Qed.

(** *** Initial populations *)

Lemma spawn_ensures (n : nat) (e : Q) :
  ensures (spawn n e)
    (fun pop => length pop = n /\
                Forall (fun p => energy p = e /\ 0.6 <= efficiency p /\ efficiency p <= 1.0) pop).
Proof.
  induction n as [|n IH]; simpl.
  - apply ensures_ret. split; [reflexivity|constructor].
  - eapply ensures_bind; [apply (random_uniform_ensures 0.6 1.0); lra|].
    intros eff Heff. eapply ensures_bind; [apply IH|].
    intros rest [Hlen Hall]. apply ensures_ret. split.
    + simpl. congruence.
    + constructor; [simpl; split; [reflexivity|exact Heff]|exact Hall].
Qed.

Lemma spawn_succeeds (n : nat) (e : Q) : succeeds (spawn n e).
Proof.
  induction n as [|n IH]; simpl.
  - apply succeeds_ret.
  - apply succeeds_bind'; [apply random_uniform_succeeds|].
    intros eff. apply succeeds_bind'; [apply IH|].
    intros rest. apply succeeds_ret.
Qed.

(** *** Resource allocation *)

Lemma total_shares_nonzero (prey : list Individual) : ~ total_shares prey == 0.
Proof. apply py_or_nonzero. lra. Qed.

Lemma feed_run (available total : Q) (prey : list Individual) :
  ~ total == 0 ->
  exists prey', feed (G := G) available total (zip prey (shares prey)) = ret prey' /\
                Forall2 (fed available total) prey prey'.
Proof.
  intros Ht. induction prey as [|p prey (prey' & Heq & Hall)]; simpl.
  - exists []. split; [reflexivity|constructor].
  - unfold feed_one. rewrite (py_div_nonzero _ _ Ht), bind_ret_l, bind_ret_l.
    fold (shares prey). rewrite Heq, bind_ret_l.
    eexists. split; [reflexivity|]. constructor; [|exact Hall].
    split; reflexivity.
Qed.

Lemma allocate_run (cfg : config) (resource : Q) (prey : list Individual) :
  exists prey', allocate (G := G) cfg resource prey = ret prey' /\
    Forall2 (fed (available_to_prey cfg resource prey) (total_shares prey)) prey prey'.
Proof.
  destruct prey as [|p prey].
  - exists []. split; [reflexivity|constructor].
  - apply (feed_run _ _ (p :: prey)), total_shares_nonzero.
Qed.

Lemma fed_efficiencies a t (prey prey' : list Individual) :
  Forall2 (fed a t) prey prey' -> efficiency <$> prey' = efficiency <$> prey.
Proof.
  induction 1 as [|p p' prey prey' [Heff _] _ IH]; [reflexivity|].
  rewrite !fmap_cons. congruence.
Qed.

(** *** Predation *)

(** Predators keep their efficiencies and their order; the prey left are a
    suffix of the prey presented. *)
Lemma predation_ensures (cfg : config) (predators prey : list Individual) :
  ensures (predation cfg predators prey)
    (fun out => efficiency <$> out.1 = efficiency <$> predators /\
                exists k, out.2 = drop k prey).
Proof.
  revert prey. induction predators as [|pred rest IH]; intros prey; simpl.
  - apply ensures_ret. split; [reflexivity|]. exists O. reflexivity.
  - destruct prey as [|target prey'].
    + apply ensures_ret. split; [reflexivity|]. exists O. reflexivity.
    + eapply ensures_bind; [apply ensures_any|]. intros r _.
      destruct (r <? 0.3 + 0.4 * efficiency pred).
      * eapply ensures_bind; [apply IH|]. intros [rest' prey''] [Heff [k Hk]].
        apply ensures_ret. simpl in *. split; [f_equal; exact Heff|].
        exists (S k). exact Hk.
      * eapply ensures_bind; [apply IH|]. intros [rest' prey''] [Heff [k Hk]].
        apply ensures_ret. simpl in *. split; [f_equal; exact Heff|].
        exists k. exact Hk.
Qed.

Lemma predation_succeeds (cfg : config) (predators prey : list Individual) :
  succeeds (predation cfg predators prey).
Proof.
  revert prey. induction predators as [|pred rest IH]; intros prey; simpl.
  - apply succeeds_ret.
  - destruct prey as [|target prey']; [apply succeeds_ret|].
    apply succeeds_bind'; [apply random_random_succeeds|]. intros r.
    destruct (r <? 0.3 + 0.4 * efficiency pred);
      (apply succeeds_bind'; [apply IH|]); intros [rest' prey'']; apply succeeds_ret.
Qed.

(** *** Reproduction and survival *)

Lemma reproduce_one_ensures (sp : species) (p : Individual) :
  ensures (reproduce_one sp p)
    (fun out => efficiency out.2 = efficiency p /\ Forall viable out.1 /\
                (length out.1 <= 1)%nat).
Proof.
  unfold reproduce_one. destruct (energy p >? repro_thresh sp).
  - eapply ensures_bind; [apply ensures_any|]. intros r _.
    destruct (r <? repro_prob sp).
    + eapply ensures_bind; [apply ensures_any|]. intros u _.
      apply ensures_ret. simpl. split; [reflexivity|]. split; [|lia].
      constructor; [|constructor]. unfold viable. simpl. apply py_max_l.
    + apply ensures_ret. simpl. split; [reflexivity|]. split; [constructor|lia].
  - apply ensures_ret. simpl. split; [reflexivity|]. split; [constructor|lia].
Qed.

Lemma survive_one_ensures (sp : species) (p : Individual) :
  ensures (survive_one sp p)
    (fun out => Forall (fun q => efficiency q = efficiency p) out /\
                (length out <= 1)%nat).
Proof.
  unfold survive_one. destruct (energy p >? min_energy sp).
  - eapply ensures_bind; [apply ensures_any|]. intros r _.
    eapply ensures_bind; [apply ensures_any|]. intros q _.
    destruct (r <? surv_base sp + 0.2 * q); apply ensures_ret.
    + split; [|simpl; lia]. constructor; [reflexivity|constructor].
    + split; [constructor|simpl; lia].
  - apply ensures_ret. split; [constructor|simpl; lia].
Qed.

Lemma life_cycle_ensures (sp : species) (p : Individual) :
  ensures (life_cycle sp p)
    (fun out => (viable p -> Forall viable out) /\ (length out <= 2)%nat).
Proof.
  unfold life_cycle.
  eapply ensures_bind; [apply reproduce_one_ensures|].
  intros [children p'] (Heff & Hch & Hn). simpl in *.
  eapply ensures_bind; [apply survive_one_ensures|].
  intros survivors [Hs Hm]. apply ensures_ret. split.
  - intros Hp. apply Forall_app. split; [exact Hch|].
    eapply Forall_impl; [exact Hs|]. intros q Hq. unfold viable in *.
    simpl in Hq. rewrite Hq, Heff. exact Hp.
  - rewrite length_app. lia.
Qed.

Lemma reproduce_ensures (sp : species) (pop : list Individual) :
  ensures (reproduce sp pop)
    (fun new => (Forall viable pop -> Forall viable new) /\
                (length new <= 2 * length pop)%nat).
Proof.
  induction pop as [|p rest IH]; simpl.
  - apply ensures_ret. split; [intros _; constructor|simpl; lia].
  - eapply ensures_bind; [apply life_cycle_ensures|]. intros added [Ha Hn].
    eapply ensures_bind; [apply IH|]. intros more [Hm Hk].
    apply ensures_ret. split.
    + intros Hall. apply Forall_cons in Hall as [Hp Hrest].
      apply Forall_app. auto.
    + rewrite length_app. lia.
Qed.

(** The only division of the loop is by [repro_thresh + 1]. *)
Lemma life_cycle_succeeds (sp : species) (p : Individual) :
  ~ repro_thresh sp + 1 == 0 -> succeeds (life_cycle sp p).
Proof.
  intros HT. unfold life_cycle. apply succeeds_bind'.
  - unfold reproduce_one. destruct (energy p >? repro_thresh sp); [|apply succeeds_ret].
    apply succeeds_bind'; [apply random_random_succeeds|]. intros r.
    destruct (r <? repro_prob sp); [|apply succeeds_ret].
    apply succeeds_bind'; [apply random_uniform_succeeds|]. intros u.
    apply succeeds_ret.
  - intros [children p']. apply succeeds_bind'; [|intros; apply succeeds_ret].
    unfold survive_one. destruct (energy p' >? min_energy sp); [|apply succeeds_ret].
    apply succeeds_bind'; [apply random_random_succeeds|]. intros r.
    rewrite (py_div_nonzero _ _ HT), bind_ret_l.
    destruct (r <? _); apply succeeds_ret.
Qed.

Lemma reproduce_succeeds (sp : species) (pop : list Individual) :
  pop = [] \/ ~ repro_thresh sp + 1 == 0 -> succeeds (reproduce sp pop).
Proof.
  intros [-> | HT]; [apply succeeds_ret|].
  induction pop as [|p rest IH]; simpl; [apply succeeds_ret|].
  apply succeeds_bind'; [apply life_cycle_succeeds, HT|]. intros added.
  apply succeeds_bind'; [apply IH|]. intros more. apply succeeds_ret.
Qed.

(** *** Resource dynamics *)

Lemma regenerate_nonneg (cfg : config) (resource available : Q) :
  0 <= resource_regen cfg -> 0 <= regenerate cfg resource available.
Proof.
  intros Hr. unfold regenerate.
  pose proof (py_max_l 0.0 (resource - available)) as Hm. lra.
Qed.

(** The allocated amount never exceeds the pool, so the floor at [0.0] leaves
    the difference as it is. *)
Lemma regenerate_exact (cfg : config) (resource : Q) (prey : list Individual) :
  regenerate cfg resource (available_to_prey cfg resource prey) ==
  resource - available_to_prey cfg resource prey + resource_regen cfg.
Proof.
  unfold regenerate, available_to_prey.
  pose proof (py_min_l resource (prey_need cfg prey)) as Hle.
  unfold py_max. destruct (_ >? 0.0) eqn:E; [reflexivity|].
  apply Qltb_ge in E. lra.
Qed.

Lemma shock_ensures (cfg : config) (resource : Q) :
  0 <= resource -> ensures (shock cfg resource) (fun r => 0 <= r).
Proof.
  intros Hr. unfold shock.
  eapply ensures_bind; [apply ensures_any|]. intros r _.
  destruct (r <? shock_chance cfg); [|apply ensures_ret, Hr].
  eapply ensures_bind; [apply (random_uniform_ensures 0.3 0.7); lra|].
  intros u [Hu _]. apply ensures_ret. nra.
Qed.

Lemma shock_succeeds (cfg : config) (resource : Q) : succeeds (shock cfg resource).
Proof.
  unfold shock. apply succeeds_bind'; [apply random_random_succeeds|]. intros r.
  destruct (r <? shock_chance cfg); [|apply succeeds_ret].
  apply succeeds_bind'; [apply random_uniform_succeeds|]. intros u. apply succeeds_ret.
Qed.

Lemma carrying_run (cfg : config) (day : Z) :
  carrying (G := G) sin cfg day =
  ret (py_max 1.0 (init_resource cfg * (1 + 0.005 * sin (inject_Z day / 10.0)))).
Proof.
  unfold carrying. rewrite py_div_nonzero by lra. reflexivity.
Qed.

Lemma damp_nonneg (resource cap : Q) : 0 <= resource -> 0 <= damp resource cap.
Proof. intros Hr. unfold damp. destruct (resource >? cap); lra. Qed.

Lemma update_resource_ensures (cfg : config) (day : Z) (resource available : Q) :
  0 <= resource_regen cfg ->
  ensures (update_resource sin cfg day resource available) (fun r => 0 <= r).
Proof.
  intros Hr. unfold update_resource.
  eapply ensures_bind; [apply shock_ensures, regenerate_nonneg, Hr|].
  intros r1 Hr1. rewrite carrying_run, bind_ret_l.
  apply ensures_ret, damp_nonneg, Hr1.
Qed.

Lemma update_resource_succeeds (cfg : config) (day : Z) (resource available : Q) :
  succeeds (update_resource sin cfg day resource available).
Proof.
  unfold update_resource. apply succeeds_bind'; [apply shock_succeeds|].
  intros r1. rewrite carrying_run, bind_ret_l. apply succeeds_ret.
Qed.

(** *** The stages of a day *)

Lemma viable_efficiencies (l l' : list Individual) :
  efficiency <$> l' = efficiency <$> l -> Forall viable l -> Forall viable l'.
Proof.
  intros Heq Hl.
  apply (Forall_fmap efficiency (fun e => 0.05 <= e)).
  rewrite Heq. apply Forall_fmap. exact Hl.
Qed.

Lemma same_length_nil {A B} (f : A -> B) (l l' : list A) :
  f <$> l' = f <$> l -> l = [] -> l' = [].
Proof. intros Heq ->. apply (fmap_nil_inv f). exact Heq. Qed.

Lemma day_stages_ensures (cfg : config) (day : Z) (st : sim_state) :
  ensures (day_stages sin cfg day st)
    (fun out => let '(prey', preds', res') := out in
       (Forall viable (st_prey st) -> Forall viable prey') /\
       (Forall viable (st_predators st) -> Forall viable preds') /\
       (st_prey st = [] -> prey' = []) /\
       (st_predators st = [] -> preds' = []) /\
       (0 <= resource_regen cfg -> 0 <= res')).
Proof.
  unfold day_stages.
  destruct (allocate_run cfg (st_resource st) (st_prey st)) as (prey1 & -> & Hfed).
  rewrite bind_ret_l. apply fed_efficiencies in Hfed.
  eapply ensures_bind; [apply random_shuffle_ensures|]. intros prey2 Hprey2.
  eapply ensures_bind; [apply random_shuffle_ensures|]. intros preds2 Hpreds2.
  eapply ensures_bind; [apply predation_ensures|].
  intros [preds3 prey3] [Heff [k Hk]]. simpl in Heff, Hk.
  eapply ensures_bind; [apply reproduce_ensures|]. intros new_prey [Hvp Hlp].
  eapply ensures_bind; [apply reproduce_ensures|]. intros new_preds [Hvq Hlq].
  eapply ensures_bind; [apply ensures_and; [apply ensures_any|]|].
  { instantiate (1 := fun r => 0 <= resource_regen cfg -> 0 <= r).
    intros g r g' Hrun Hr. eapply update_resource_ensures; eauto. }
  intros res' [_ Hres]. apply ensures_ret.
  assert (Hnil2 : st_prey st = [] -> prey3 = []).
  { intros Hnil. apply (same_length_nil _ _ _ Hfed) in Hnil. subst prey1.
    apply Permutation_nil_r in Hprey2. subst prey2 prey3. apply drop_nil. }
  assert (Hnil3 : st_predators st = [] -> preds3 = []).
  { intros Hnil. rewrite Hnil in Hpreds2. apply Permutation_nil_r in Hpreds2.
    subst preds2. apply (fmap_nil_inv efficiency). exact Heff. }
  repeat split.
  - intros Hv. apply Hvp. subst prey3. apply Forall_drop.
    rewrite Hprey2. eapply viable_efficiencies; eauto.
  - intros Hv. apply Hvq. eapply viable_efficiencies; [exact Heff|].
    rewrite Hpreds2. exact Hv.
  - intros Hnil. rewrite (Hnil2 Hnil) in Hlp.
    destruct new_prey; [reflexivity|simpl in Hlp; lia].
  - intros Hnil. rewrite (Hnil3 Hnil) in Hlq.
    destruct new_preds; [reflexivity|simpl in Hlq; lia].
  - exact Hres.
Qed.

Lemma day_stages_succeeds (cfg : config) (day : Z) (st : sim_state) :
  st_prey st = [] \/ ~ prey_repro_thresh cfg + 1 == 0 ->
  st_predators st = [] \/ ~ pred_repro_thresh cfg + 1 == 0 ->
  succeeds (day_stages sin cfg day st).
Proof.
  intros Hprey Hpred. unfold day_stages.
  destruct (allocate_run cfg (st_resource st) (st_prey st)) as (prey1 & -> & Hfed).
  rewrite bind_ret_l. apply fed_efficiencies in Hfed.
  eapply succeeds_bind;
    [apply random_shuffle_succeeds|apply random_shuffle_ensures|]. intros prey2 Hprey2.
  eapply succeeds_bind;
    [apply random_shuffle_succeeds|apply random_shuffle_ensures|]. intros preds2 Hpreds2.
  eapply succeeds_bind; [apply predation_succeeds|apply predation_ensures|].
  intros [preds3 prey3] [Heff [k Hk]]. simpl in Heff, Hk.
  apply succeeds_bind'.
  { apply reproduce_succeeds. destruct Hprey as [Hnil|HT]; [left|right; exact HT].
    apply (same_length_nil _ _ _ Hfed) in Hnil. subst prey1.
    apply Permutation_nil_r in Hprey2. subst prey2. rewrite Hk. apply drop_nil. }
  intros new_prey. apply succeeds_bind'.
  { apply reproduce_succeeds. destruct Hpred as [Hnil|HT]; [left|right; exact HT].
    rewrite Hnil in Hpreds2. apply Permutation_nil_r in Hpreds2. subst preds2.
    apply (fmap_nil_inv efficiency). exact Heff. }
  intros new_preds. apply succeeds_bind'; [apply update_resource_succeeds|].
  intros res. apply succeeds_ret.
Qed.

(** *** One day and the loop *)

Lemma safety_cap_take (cap : nat) (pop : list Individual) :
  safety_cap cap pop = take cap pop.
Proof.
  unfold safety_cap. destruct (Nat.ltb_spec cap (length pop)); [reflexivity|].
  symmetry. apply take_ge. lia.
Qed.

Lemma safety_cap_length (cap : nat) (pop : list Individual) :
  length (safety_cap cap pop) = Nat.min cap (length pop).
Proof. rewrite safety_cap_take. apply length_take. Qed.

Lemma sim_day_run (cfg : config) (day : Z) (st : sim_state) (rows : list day_row) g :
  st_history st = history_of rows ->
  sim_day sin cfg day st g =
  match day_stages sin cfg day st g with
  | Ok (out, g') => Ok (end_of_day day rows out, g')
  | Raise e => Raise e
  end.
Proof.
  intros Hh. unfold sim_day, bind at 1.
  destruct (day_stages sin cfg day st g) as [[[[prey predators] resource] g']|e];
    [|reflexivity].
  rewrite Hh, record_statistics_rows. reflexivity.
Qed.

Lemma sim_day_ensures (cfg : config) (day : Z) (st : sim_state) (rows : list day_row)
    (Q : sim_state -> Prop) :
  st_history st = history_of rows ->
  ensures (day_stages sin cfg day st) (fun out => Q (end_of_day day rows out)) ->
  ensures (sim_day sin cfg day st) Q.
Proof.
  intros Hh Hst g st' g' Hrun. rewrite (sim_day_run _ _ _ _ _ Hh) in Hrun.
  destruct (day_stages sin cfg day st g) as [[out g1]|e] eqn:E; [|discriminate].
  injection Hrun as <- <-. eapply Hst, E.
Qed.

Lemma sim_day_succeeds (cfg : config) (day : Z) (st : sim_state) (rows : list day_row) :
  st_history st = history_of rows ->
  succeeds (day_stages sin cfg day st) -> succeeds (sim_day sin cfg day st).
Proof.
  intros Hh Hst g. rewrite (sim_day_run _ _ _ _ _ Hh).
  destruct (Hst g) as (out & g' & ->). eauto.
Qed.

(** *** The state at the head of the loop *)

Lemma np_random_seed_ok (a : Z) :
  (0 <= a <= 2 ^ 32 - 1)%Z -> np_random_seed (G := G) a = ret tt.
Proof.
  intros Ha. unfold np_random_seed.
  destruct (Z.leb_spec 0 a); [|lia]. destruct (Z.leb_spec a (2 ^ 32 - 1)); [|lia].
  reflexivity.
Qed.

Lemma np_random_seed_bad (a : Z) :
  ~ (0 <= a <= 2 ^ 32 - 1)%Z -> np_random_seed (G := G) a = raise ValueError.
Proof.
  intros Ha. unfold np_random_seed.
  destruct (Z.leb_spec 0 a); [|reflexivity].
  destruct (Z.leb_spec a (2 ^ 32 - 1)); [lia|reflexivity].
Qed.

(** Seeding overwrites the generator state: what follows does not depend on
    the state before the call. *)
Lemma init_state_seeded (cfg : config) (g1 g2 : G) :
  init_state cfg g1 = init_state cfg g2.
Proof. reflexivity. Qed.

Lemma init_state_ensures (cfg : config) :
  ensures (init_state cfg)
    (fun st => st_history st = history_of [] /\ st_resource st = init_resource cfg /\
               length (st_prey st) = Z.to_nat (init_prey cfg) /\
               length (st_predators st) = Z.to_nat (init_pred cfg) /\
               Forall viable (st_prey st) /\ Forall viable (st_predators st)).
Proof.
  assert (Hv : forall e pop,
    Forall (fun p => energy p = e /\ 0.6 <= efficiency p /\ efficiency p <= 1.0) pop ->
    Forall viable pop).
  { intros e pop Hall. eapply Forall_impl; [exact Hall|].
    intros p (_ & Hlo & _). unfold viable. lra. }
  unfold init_state.
  eapply ensures_bind; [apply ensures_any|]. intros _ _.
  eapply ensures_bind; [apply ensures_any|]. intros _ _.
  eapply ensures_bind; [apply spawn_ensures|]. intros prey [Hlp Hap].
  eapply ensures_bind; [apply spawn_ensures|]. intros predators [Hlq Haq].
  apply ensures_ret. simpl. eauto 10.
Qed.

Lemma init_state_succeeds (cfg : config) : seed_ok cfg -> succeeds (init_state cfg).
Proof.
  intros Hs. unfold init_state.
  apply succeeds_bind'; [intros g; unfold random_seed; eauto|]. intros _.
  rewrite (np_random_seed_ok _ Hs), bind_ret_l.
  apply succeeds_bind'; [apply spawn_succeeds|]. intros prey.
  apply succeeds_bind'; [apply spawn_succeeds|]. intros predators.
  apply succeeds_ret.
Qed.

(** A seed that [numpy] refuses stops the run before the populations are
    drawn. *)
Lemma bad_seed_raises (cfg : config) (g : G) :
  ~ seed_ok cfg -> run_sim sin cfg g = Raise ValueError.
Proof.
  intros Hs. unfold run_sim, init_state, bind, random_seed.
  rewrite (np_random_seed_bad _ Hs). reflexivity.
Qed.

(** *** Unfolding the loop *)

Lemma bind_assoc {A B C} (m : M G A) (k : A -> M G B) (k' : B -> M G C) g :
  bind (bind m k) k' g = bind m (fun a => bind (k a) k') g.
Proof. unfold bind. destruct (m g) as [[a g1]|e]; reflexivity. Qed.

Lemma bind_ext {A B} (m : M G A) (k k' : A -> M G B) g :
  (forall a g1, k a g1 = k' a g1) -> bind m k g = bind m k' g.
Proof. intros Hk. unfold bind. destruct (m g) as [[a g1]|e]; [apply Hk|reflexivity]. Qed.

Lemma sim_loop_app (cfg : config) (ds1 ds2 : list Z) (st : sim_state) g :
  sim_loop sin cfg (ds1 ++ ds2) st g =
  bind (sim_loop sin cfg ds1 st) (sim_loop sin cfg ds2) g.
Proof.
  revert st g. induction ds1 as [|day ds1 IH]; intros st g; simpl; [reflexivity|].
  rewrite bind_assoc. apply bind_ext. intros st1 g1. apply IH.
Qed.

(** The state after [S n] days is a day's step from the state after [n]. *)
Lemma run_days_succ (cfg : config) (n : nat) g :
  run_days sin cfg (S n) g =
  bind (run_days sin cfg n) (sim_day sin cfg (Z.of_nat n)) g.
Proof.
  unfold run_days. rewrite py_range_succ, bind_assoc. apply bind_ext.
  intros st0 g1. rewrite sim_loop_app. apply bind_ext.
  intros st g2. simpl. unfold bind. destruct (sim_day _ _ _ _ _) as [[? ?]|]; reflexivity.
Qed.

(** [run_sim] returns the history of the state after [days] days. *)
Lemma run_sim_run_days (cfg : config) g :
  run_sim sin cfg g =
  bind (run_days sin cfg (Z.to_nat (days cfg))) (fun st => ret (st_history st)) g.
Proof.
  unfold run_sim, run_days. rewrite bind_assoc.
  replace (py_range (Z.of_nat (Z.to_nat (days cfg)))) with (py_range (days cfg));
    [reflexivity|].
  unfold py_range. rewrite Nat2Z.id. reflexivity.
Qed.

Section Loop.

Variable cfg : config.
Variable I : list Individual -> list Individual -> Prop.
Variable P : day_row -> Prop.

(** Each day preserves [I] across the caps and appends a row satisfying [P]. *)
Hypothesis day_ok : forall day st, I (st_prey st) (st_predators st) ->
  ensures (day_stages sin cfg day st)
    (fun out => let '(prey, predators, resource) := out in
       P (row_of day prey predators resource) /\
       I (safety_cap PREY_CAP prey) (safety_cap PRED_CAP predators)).

Lemma sim_loop_ensures (ds : list Z) (st : sim_state) (rows : list day_row) :
  state_inv I rows st ->
  ensures (sim_loop sin cfg ds st)
    (fun st' => exists rows', state_inv I (rows ++ rows') st' /\
                              row_day <$> rows' = ds /\ Forall P rows').
Proof.
  revert st rows. induction ds as [|day ds IH]; intros st rows [Hh HI]; simpl.
  - apply ensures_ret. exists []. rewrite app_nil_r. repeat split; auto.
  - eapply ensures_bind.
    + apply (sim_day_ensures _ _ _ rows
               (fun st' => exists row, state_inv I (rows ++ [row]) st' /\
                                       row_day row = day /\ P row)); [exact Hh|].
      eapply ensures_mono; [apply (day_ok day st HI)|].
      intros [[prey predators] resource] [HP HI'].
      exists (row_of day prey predators resource). repeat split; auto.
    + intros st1 (row & Hinv & Hday & Hrow).
      eapply ensures_mono; [apply (IH st1 (rows ++ [row]) Hinv)|].
      intros st' (rows' & Hinv' & Hds & Hall). exists (row :: rows').
      rewrite <- app_assoc in Hinv'. split; [exact Hinv'|].
      split; [rewrite fmap_cons; congruence|constructor; assumption].
Qed.

Hypothesis init_ok : ensures (init_state cfg)
  (fun st => I (st_prey st) (st_predators st)).

Lemma run_days_ensures (n : nat) :
  ensures (run_days sin cfg n)
    (fun st => exists rows, state_inv I rows st /\
                 row_day <$> rows = py_range (Z.of_nat n) /\ Forall P rows).
Proof.
  unfold run_days. eapply ensures_bind.
  - apply ensures_and; [apply init_state_ensures|apply init_ok].
  - intros st0 [(Hh & _) HI]. apply (sim_loop_ensures _ st0 []). split; assumption.
Qed.

Lemma run_sim_ensures :
  ensures (run_sim sin cfg)
    (fun h => exists rows, h = history_of rows /\
                row_day <$> rows = py_range (days cfg) /\ Forall P rows).
Proof.
  unfold run_sim. eapply ensures_bind.
  - apply ensures_and; [apply init_state_ensures|apply init_ok].
  - intros st0 [(Hh & _) HI]. eapply ensures_bind.
    + apply (sim_loop_ensures _ st0 []). split; assumption.
    + intros st (rows & [Hrows _] & Hds & Hall). apply ensures_ret.
      exists rows. auto.
Qed.

(** The stages return from every state satisfying [I]. *)
Hypothesis day_runs : forall day st, I (st_prey st) (st_predators st) ->
  succeeds (day_stages sin cfg day st).

Lemma sim_loop_succeeds (ds : list Z) (st : sim_state) (rows : list day_row) :
  state_inv I rows st -> succeeds (sim_loop sin cfg ds st).
Proof.
  revert st rows. induction ds as [|day ds IH]; intros st rows [Hh HI]; simpl.
  - apply succeeds_ret.
  - eapply succeeds_bind.
    + apply (sim_day_succeeds _ _ _ rows Hh), day_runs, HI.
    + apply (sim_day_ensures _ _ _ rows
               (fun st' => exists row, state_inv I (rows ++ [row]) st')); [exact Hh|].
      eapply ensures_mono; [apply (day_ok day st HI)|].
      intros [[prey predators] resource] [HP HI'].
      exists (row_of day prey predators resource). split; auto.
    + intros st1 (row & Hinv). apply (IH st1 _ Hinv).
Qed.

Lemma run_sim_succeeds : seed_ok cfg -> succeeds (run_sim sin cfg).
Proof.
  intros Hs. unfold run_sim. eapply succeeds_bind.
  - apply init_state_succeeds, Hs.
  - apply ensures_and; [apply init_state_ensures|apply init_ok].
  - intros st0 [(Hh & _) HI]. apply succeeds_bind'.
    + apply (sim_loop_succeeds _ st0 []). split; assumption.
    + intros st. apply succeeds_ret.
Qed.

End Loop.

(** ** Properties of a run *)

(** With no invariant asked for, every returned history is a table with one
    row per day of [range(days)]. *)
Lemma run_sim_table (cfg : config) :
  ensures (run_sim sin cfg)
    (fun h => exists rows, h = history_of rows /\
                row_day <$> rows = py_range (days cfg)).
Proof.
  eapply ensures_mono.
  - apply (run_sim_ensures cfg (fun _ _ => True) (fun _ => True)).
    + intros day st _. eapply ensures_mono; [apply ensures_any|].
      intros [[prey predators] resource] _. split; exact I.
    + apply ensures_any.
  - intros h (rows & Hh & Hds & _). eauto.
Qed.

Lemma history_of_lookup (rows : list day_row) (key : string) :
  key ∈ metric_keys ->
  exists l, history_of rows !! key = Some l /\ length l = length rows.
Proof.
  intros Hkey. unfold metric_keys in Hkey. unfold history_of.
  repeat (apply elem_of_cons in Hkey as [-> | Hkey]);
    [rewrite dict6_day|rewrite dict6_prey_count|rewrite dict6_pred_count
    |rewrite dict6_resource|rewrite dict6_prey_avg_eff|rewrite dict6_pred_avg_eff|];
    [eexists; split; [reflexivity|apply length_fmap]..|].
  apply elem_of_nil in Hkey. contradiction.
Qed.

(** C1: two invocations of [run_sim] with the same configuration (the same
    parameter values and the same seed) have the same outcome, and so return
    equal histories, whatever state earlier calls left the generator in: the
    run reseeds the generator before its first draw. *)
Theorem run_sim_deterministic (cfg : config) (g1 g2 : G) :
  run_sim sin cfg g1 = run_sim sin cfg g2.
Proof.
  unfold run_sim. unfold bind at 1 3.
  rewrite (init_state_seeded cfg g1 g2). reflexivity.
Qed.

(** The shape of a returned history: the six keys, one entry per day in
    each sequence, the days in order. *)
Lemma run_sim_shape (cfg : config) (g : G) (h : history) (g' : G) :
  run_sim sin cfg g = Ok (h, g') ->
  dom h = list_to_set metric_keys /\
  (forall key, key ∈ metric_keys ->
     exists l, h !! key = Some l /\ length l = Z.to_nat (days cfg)) /\
  h !! "day" = Some (VInt <$> py_range (days cfg)).
Proof.
  intros Hrun. destruct (run_sim_table cfg g h g' Hrun) as (rows & -> & Hds).
  assert (Hlen : length rows = Z.to_nat (days cfg)).
  { rewrite <- (length_fmap row_day), Hds. apply py_range_length. }
  split; [unfold history_of; rewrite dict6_dom; reflexivity|]. split.
  - intros key Hkey. destruct (history_of_lookup rows key Hkey) as (l & Hl & Hn).
    exists l. split; [exact Hl|congruence].
  - unfold history_of. rewrite dict6_day, list_fmap_compose, Hds. reflexivity.
Qed.

(** C2: when [run_sim] returns, the history has exactly the six metric keys,
    each of its six sequences has one entry per day of [range(days)] (so
    [days] entries, for [days] not negative), and the sequence under ["day"]
    is [0, 1, ..., days - 1]. *)
Theorem history_shape (cfg : config) (g : G) (h : history) (g' : G) :
  run_sim sin cfg g = Ok (h, g') ->
  dom h = list_to_set metric_keys /\
  (forall key, key ∈ metric_keys ->
     exists l, h !! key = Some l /\ length l = Z.to_nat (days cfg)) /\
  h !! "day" = Some (VInt <$> py_range (days cfg)).
Proof. apply run_sim_shape. Qed.

(** A day on a state whose history is a table: what it appends and what it
    carries forward. *)
Lemma sim_day_rows (cfg : config) (day : Z) (st : sim_state)
    (rows : list day_row) (g : G) (st' : sim_state) (g' : G) :
  st_history st = history_of rows ->
  sim_day sin cfg day st g = Ok (st', g') ->
  exists prey predators resource,
    day_stages sin cfg day st g = Ok (prey, predators, resource, g') /\
    st_history st' =
      history_of (rows ++ [mkRow day (Z.of_nat (length prey))
                                 (Z.of_nat (length predators)) resource
                                 (mean_eff prey) (mean_eff predators)]) /\
    st_prey st' = take 2000 prey /\
    st_predators st' = take 500 predators /\
    ((2000 < length prey)%nat -> (length (st_prey st') < length prey)%nat) /\
    ((500 < length predators)%nat ->
       (length (st_predators st') < length predators)%nat).
Proof.
  intros Hh Hrun. rewrite (sim_day_run _ _ _ _ _ Hh) in Hrun.
  destruct (day_stages sin cfg day st g) as [[[[prey predators] resource] g1]|e];
    [|discriminate].
  injection Hrun as <- <-. exists prey, predators, resource. simpl.
  rewrite !safety_cap_take. unfold PREY_CAP, PRED_CAP.
  split; [reflexivity|]. split; [reflexivity|]. split; [reflexivity|].
  split; [reflexivity|]. rewrite !length_take. split; lia.
Qed.

(** C4: the state after [n] days of a run holds at most 2000 prey and at
    most 500 predators, as soon as a day has run ([0 < n]) or, before the
    first day, when the initial populations are within the caps. The state
    after [n] days is the state that the stages of day [n] start from. *)
Theorem caps_enforced (cfg : config) (n : nat) (g : G) (st : sim_state) (g' : G) :
  run_days sin cfg n g = Ok (st, g') ->
  (0 < n)%nat \/ ((init_prey cfg <= 2000)%Z /\ (init_pred cfg <= 500)%Z) ->
  (length (st_prey st) <= 2000)%nat /\ (length (st_predators st) <= 500)%nat.
Proof.
  intros Hrun Hcase. destruct n as [|n].
  - destruct Hcase as [Hn | [Hp Hq]]; [lia|].
    unfold run_days in Hrun. apply bind_Ok in Hrun as (st0 & g1 & Hinit & [= <- _]).
    destruct (init_state_ensures cfg g st0 g1 Hinit) as (_ & _ & Hlp & Hlq & _).
    lia.
  - rewrite run_days_succ in Hrun.
    apply bind_Ok in Hrun as (st1 & g1 & Hst1 & Hday).
    unfold sim_day in Hday.
    apply bind_Ok in Hday as ([[prey preds] res] & g2 & _ & Hday).
    apply bind_Ok in Hday as (h & g3 & _ & [= <- _]). simpl.
    rewrite !safety_cap_length. unfold PREY_CAP, PRED_CAP. lia.
Qed.

(** *** Averages *)

Lemma mean_eff_nil : mean_eff [] == 0.
Proof. reflexivity. Qed.

Lemma mean_eff_lower (pop : list Individual) :
  Forall viable pop -> pop <> [] -> 0.05 <= mean_eff pop.
Proof.
  intros Hv Hne. unfold mean_eff.
  assert (Hn : (0 < Z.of_nat (length pop))%Z) by (destruct pop; [congruence|simpl; lia]).
  unfold py_or_int. destruct (Z.eqb_spec (Z.of_nat (length pop)) 0); [lia|].
  assert (Hq : 0 < inject_Z (Z.of_nat (length pop))).
  { unfold Qlt. simpl. lia. }
  apply Qle_shift_div_l; [exact Hq|].
  pose proof (py_sum_lower 0.05 0.0 (map efficiency pop)) as Hsum.
  rewrite length_map in Hsum.
  assert (Hall : Forall (fun x => 0.05 <= x) (map efficiency pop)).
  { apply (Forall_fmap efficiency (fun e => 0.05 <= e)). exact Hv. }
  specialize (Hsum Hall). lra.
Qed.

Lemma avg_ok_mean (pop : list Individual) :
  Forall viable pop ->
  avg_ok (VInt (Z.of_nat (length pop))) (VFloat (mean_eff pop)).
Proof.
  intros Hv. exists (Z.of_nat (length pop)), (mean_eff pop).
  split; [reflexivity|]. split; [reflexivity|]. split.
  - intros Hn. destruct pop; [apply mean_eff_nil|simpl in Hn; lia].
  - intros Hn. apply mean_eff_lower; [exact Hv|]. intros ->. apply Hn. reflexivity.
Qed.

Lemma day_stages_viable (cfg : config) (day : Z) (st : sim_state) :
  Forall viable (st_prey st) /\ Forall viable (st_predators st) ->
  ensures (day_stages sin cfg day st)
    (fun out => let '(prey, predators, resource) := out in
       row_avg_ok (row_of day prey predators resource) /\
       (Forall viable (safety_cap PREY_CAP prey) /\
        Forall viable (safety_cap PRED_CAP predators))).
Proof.
  intros [Hp Hq]. eapply ensures_mono; [apply day_stages_ensures|].
  intros [[prey predators] resource] (Hvp & Hvq & _). specialize (Hvp Hp).
  specialize (Hvq Hq). split.
  - split; apply avg_ok_mean; assumption.
  - rewrite !safety_cap_take. split; apply Forall_take; assumption.
Qed.

Lemma init_state_viable (cfg : config) :
  ensures (init_state cfg)
    (fun st => Forall viable (st_prey st) /\ Forall viable (st_predators st)).
Proof.
  eapply ensures_mono; [apply init_state_ensures|].
  intros st (_ & _ & _ & _ & Hp & Hq). split; assumption.
Qed.

(** At the start of every day of a run all individuals are viable. *)
Lemma run_days_viable (cfg : config) (n : nat) :
  ensures (run_days sin cfg n)
    (fun st => Forall viable (st_prey st) /\ Forall viable (st_predators st)).
Proof.
  eapply ensures_mono.
  - apply (run_days_ensures cfg
             (fun prey predators => Forall viable prey /\ Forall viable predators)
             row_avg_ok (day_stages_viable cfg) (init_state_viable cfg)).
  - intros st (rows & [_ Hv] & _). exact Hv.
Qed.

Lemma rows_resource (P : Q -> Prop) (rows : list day_row) :
  Forall (fun row => P (row_resource row)) rows ->
  Forall (fun v => exists x, v = VFloat x /\ P x) (VFloat ∘ row_resource <$> rows).
Proof.
  intros Hall. apply Forall_fmap. eapply Forall_impl; [exact Hall|].
  intros row Hrow. simpl. eauto.
Qed.

Lemma rows_avg_ok (rows : list day_row) :
  Forall row_avg_ok rows ->
  Forall2 avg_ok (VInt ∘ row_prey_count <$> rows) (VFloat ∘ row_prey_avg_eff <$> rows) /\
  Forall2 avg_ok (VInt ∘ row_pred_count <$> rows) (VFloat ∘ row_pred_avg_eff <$> rows).
Proof.
  induction 1 as [|row rows [Hp Hq] _ [IHp IHq]].
  - split; constructor.
  - rewrite !fmap_cons. split; constructor; assumption.
Qed.

Lemma rows_prey_count_zero (rows : list day_row) :
  Forall (fun row => row_prey_count row = 0%Z) rows ->
  VInt ∘ row_prey_count <$> rows = replicate (length rows) (VInt 0).
Proof.
  induction 1 as [|row rows Hrow _ IH]; [reflexivity|].
  rewrite fmap_cons. simpl. rewrite Hrow. f_equal. exact IH.
Qed.

Lemma thresh_ne (T : Q) : ~ T == -1 -> ~ T + 1 == 0.
Proof. intros HT Hz. apply HT. lra. Qed.

(** C6 (as amended): for a configuration whose [resource_regen] is not
    negative, every resource value that a run records is non-negative: the
    day's update floors the pool at zero before adding the regeneration, and
    the shock and the damping scale by positive factors. *)
Theorem resource_nonneg (cfg : config) (g : G) (h : history) (g' : G) :
  0 <= resource_regen cfg ->
  run_sim sin cfg g = Ok (h, g') ->
  exists l, h !! "resource" = Some l /\ length l = Z.to_nat (days cfg) /\
            Forall (fun v => exists x, v = VFloat x /\ 0 <= x) l.
Proof.
  intros Hregen Hrun.
  assert (Hens : ensures (run_sim sin cfg)
    (fun h => exists rows, h = history_of rows /\
       row_day <$> rows = py_range (days cfg) /\
       Forall (fun row => 0 <= row_resource row) rows)).
  { apply (run_sim_ensures cfg (fun _ _ => True)).
    - intros day st _. eapply ensures_mono; [apply day_stages_ensures|].
      intros [[prey predators] resource] (_ & _ & _ & _ & Hres).
      split; [exact (Hres Hregen)|exact I].
    - apply ensures_any. }
  destruct (Hens g h g' Hrun) as (rows & -> & Hds & Hall).
  exists (VFloat ∘ row_resource <$> rows). unfold history_of.
  rewrite dict6_resource. split; [reflexivity|]. split.
  - rewrite length_fmap, <- (length_fmap row_day), Hds. apply py_range_length.
  - apply (rows_resource (fun x => 0 <= x)). exact Hall.
Qed.

(** C7 (as amended): on every recorded day the average efficiency of a
    population is exactly zero when its recorded count is zero, and at least
    [0.05] (so never negative) when the count is not zero. No upper bound
    holds: mutation can carry an efficiency above [1.0]. *)
Theorem avg_eff_bounds (cfg : config) (g : G) (h : history) (g' : G) :
  run_sim sin cfg g = Ok (h, g') ->
  exists prey_counts prey_avgs pred_counts pred_avgs,
    h !! "prey_count" = Some prey_counts /\ h !! "prey_avg_eff" = Some prey_avgs /\
    h !! "pred_count" = Some pred_counts /\ h !! "pred_avg_eff" = Some pred_avgs /\
    Forall2 avg_ok prey_counts prey_avgs /\ Forall2 avg_ok pred_counts pred_avgs.
Proof.
  intros Hrun.
  destruct (run_sim_ensures cfg
              (fun prey predators => Forall viable prey /\ Forall viable predators)
              row_avg_ok (day_stages_viable cfg)
              (init_state_viable cfg) g h g' Hrun) as (rows & -> & _ & Hall).
  destruct (rows_avg_ok rows Hall) as [Hp Hq].
  do 4 eexists. unfold history_of.
  rewrite dict6_prey_count, dict6_prey_avg_eff, dict6_pred_count, dict6_pred_avg_eff.
  repeat (split; [reflexivity|]). split; assumption.
Qed.

(** C8 (as amended): for a configuration with [init_prey = 0], a seed that
    [numpy] accepts and a predator reproduction threshold other than [-1],
    the run goes through all its days and records a prey count of zero on
    each of them: no stage adds a prey to an empty prey list, and an empty
    population does not stop the loop. *)
Theorem no_spontaneous_prey (cfg : config) (g : G) :
  init_prey cfg = 0%Z ->
  seed_ok cfg ->
  ~ pred_repro_thresh cfg == -1 ->
  exists h g', run_sim sin cfg g = Ok (h, g') /\
    h !! "prey_count" = Some (replicate (Z.to_nat (days cfg)) (VInt 0)).
Proof.
  intros Hprey Hseed HT.
  assert (Hday : forall day st, st_prey st = [] ->
    ensures (day_stages sin cfg day st)
      (fun out => let '(prey, predators, resource) := out in
         row_prey_count (row_of day prey predators resource) = 0%Z /\
         safety_cap PREY_CAP prey = [])).
  { intros day st Hnil. eapply ensures_mono; [apply day_stages_ensures|].
    intros [[prey predators] resource] (_ & _ & Hp & _).
    rewrite (Hp Hnil). split; reflexivity. }
  assert (Hinit : ensures (init_state cfg) (fun st => st_prey st = [])).
  { eapply ensures_mono; [apply init_state_ensures|].
    intros st (_ & _ & Hlen & _). rewrite Hprey in Hlen.
    destruct (st_prey st); [reflexivity|discriminate]. }
  assert (Hruns : forall day st, st_prey st = [] ->
    succeeds (day_stages sin cfg day st)).
  { intros day st Hnil. apply day_stages_succeeds; [left; exact Hnil|].
    right. apply thresh_ne, HT. }
  destruct (run_sim_succeeds cfg (fun prey _ => prey = [])
              (fun row => row_prey_count row = 0%Z) Hday Hinit Hruns Hseed g)
    as (h & g' & Hrun).
  exists h, g'. split; [exact Hrun|].
  destruct (run_sim_ensures cfg (fun prey _ => prey = [])
              (fun row => row_prey_count row = 0%Z) Hday Hinit g h g' Hrun)
    as (rows & -> & Hds & Hall).
  unfold history_of. rewrite dict6_prey_count, (rows_prey_count_zero rows Hall).
  rewrite <- (length_fmap row_day), Hds, py_range_length. reflexivity.
Qed.

(** C10 (as amended): for a configuration with [days <= 0] and a seed that
    [numpy] accepts, [run_sim] returns without raising, and the history it
    returns has the six metric keys, each with an empty sequence. *)
Theorem no_days_empty_history (cfg : config) (g : G) :
  (days cfg <= 0)%Z ->
  seed_ok cfg ->
  exists h g', run_sim sin cfg g = Ok (h, g') /\
    dom h = list_to_set metric_keys /\
    forall key, key ∈ metric_keys -> h !! key = Some [].
Proof.
  intros Hdays Hseed.
  destruct (init_state_succeeds cfg Hseed g) as (st0 & g' & Hinit).
  destruct (init_state_ensures cfg g st0 g' Hinit) as (Hh & _).
  exists (st_history st0), g'. split.
  - unfold run_sim. rewrite (py_range_nonpos _ Hdays). apply bind_Ok.
    exists st0, g'. split; [exact Hinit|reflexivity].
  - rewrite Hh. split; [unfold history_of; rewrite dict6_dom; reflexivity|].
    intros key Hkey.
    destruct (history_of_lookup [] key Hkey) as (l & Hl & Hn).
    rewrite Hl. destruct l; [reflexivity|discriminate].
Qed.

(** C5 (as amended): [run_sim] does not validate its configuration. Whatever
    the values of [days], of the initial populations and resource and of
    [shock_chance], it returns a history, with one entry per day of
    [range(days)] in each sequence, as soon as [numpy] accepts the seed and
    neither reproduction threshold is [-1]. *)
Theorem run_sim_total (cfg : config) (g : G) :
  seed_ok cfg ->
  ~ prey_repro_thresh cfg == -1 ->
  ~ pred_repro_thresh cfg == -1 ->
  exists h g', run_sim sin cfg g = Ok (h, g') /\
    forall key, key ∈ metric_keys ->
      exists l, h !! key = Some l /\ length l = Z.to_nat (days cfg).
Proof.
  intros Hseed HTp HTq.
  assert (Hday : forall day st, True ->
    ensures (day_stages sin cfg day st)
      (fun out => let '(prey, predators, resource) := out in True /\ True)).
  { intros day st _. eapply ensures_mono; [apply ensures_any|].
    intros [[prey predators] resource] _. split; exact I. }
  assert (Hruns : forall day st, True -> succeeds (day_stages sin cfg day st)).
  { intros day st _. apply day_stages_succeeds; right; apply thresh_ne; assumption. }
  destruct (run_sim_succeeds cfg (fun _ _ => True) (fun _ => True) Hday
              (ensures_any _) Hruns Hseed g) as (h & g' & Hrun).
  exists h, g'. split; [exact Hrun|].
  apply (run_sim_shape cfg g h g' Hrun).
Qed.

(** *** The allocation, in detail *)

Lemma shares_sum_positive (prey : list Individual) :
  Forall viable prey -> prey <> [] -> 0 < py_sum 0 (shares prey).
Proof.
  intros Hv Hne.
  pose proof (py_sum_lower 0.55 0 (shares prey)) as Hsum.
  assert (Hall : Forall (fun x => 0.55 <= x) (shares prey)).
  { unfold shares. apply (Forall_fmap (fun p => 0.5 + efficiency p) (fun x => 0.55 <= x)).
    eapply Forall_impl; [exact Hv|]. intros p Hp. unfold viable in Hp. simpl. lra. }
  specialize (Hsum Hall). unfold shares in Hsum at 1. rewrite length_map in Hsum.
  assert (Hn : 1 <= inject_Z (Z.of_nat (length prey))).
  { destruct prey; [congruence|]. unfold Qle. simpl. lia. }
  nra.
Qed.

Lemma total_shares_sum (prey : list Individual) :
  ~ py_sum 0 (shares prey) == 0 -> total_shares prey = py_sum 0 (shares prey).
Proof.
  intros Hne. unfold total_shares, py_or. rewrite Qeq_bool_false by exact Hne.
  reflexivity.
Qed.

(** The amounts handed out add up to the available amount times the sum of
    the weights over [total]. *)
Lemma got_sum (available total : Q) (prey : list Individual) :
  py_sum 0 (map (fun p => available * ((0.5 + efficiency p) / total)) prey) ==
  available * (py_sum 0 (shares prey) / total).
Proof.
  induction prey as [|p prey IH].
  - unfold py_sum. simpl. unfold Qdiv. lra.
  - unfold shares in *. cbn [map]. rewrite !py_sum_cons, IH. unfold Qdiv. lra.
Qed.

(** The resource at the end of the day is the regenerated pool, scaled by the
    shock factor (one when there is no shock) and by the damping factor. *)
Lemma update_resource_shape (cfg : config) (day : Z) (resource available : Q) :
  ensures (update_resource sin cfg day resource available)
    (fun r => exists shock_factor damping,
       (shock_factor == 1 \/ (0.3 <= shock_factor /\ shock_factor <= 0.7)) /\
       (damping == 1 \/ damping == 0.98) /\
       r == regenerate cfg resource available * shock_factor * damping).
Proof.
  unfold update_resource. eapply ensures_bind.
  - instantiate (1 := fun r1 => exists f,
      (f == 1 \/ (0.3 <= f /\ f <= 0.7)) /\ r1 == regenerate cfg resource available * f).
    unfold shock. eapply ensures_bind; [apply ensures_any|]. intros r _.
    destruct (r <? shock_chance cfg).
    + eapply ensures_bind; [apply (random_uniform_ensures 0.3 0.7); lra|].
      intros u Hu. apply ensures_ret. exists u. split; [right; exact Hu|reflexivity].
    + apply ensures_ret. exists 1. split; [left; reflexivity|lra].
  - intros r1 (f & Hf & Hr1). rewrite carrying_run, bind_ret_l.
    apply ensures_ret. unfold damp. destruct (r1 >? _).
    + exists f, 0.98. split; [exact Hf|]. split; [right; reflexivity|].
      rewrite Hr1. reflexivity.
    + exists f, 1. split; [exact Hf|]. split; [left; reflexivity|].
      rewrite Hr1. lra.
Qed.

(** The resource that the stages of a day return comes from
    [update_resource] on the pool and the amount allocated at the start of
    the day. *)
Lemma day_stages_resource (cfg : config) (day : Z) (st : sim_state) g out g' :
  day_stages sin cfg day st g = Ok (out, g') ->
  exists g1 g2,
    update_resource sin cfg day (st_resource st)
      (available_to_prey cfg (st_resource st) (st_prey st)) g1 = Ok (out.2, g2).
Proof.
  unfold day_stages. intros Hrun.
  apply bind_Ok in Hrun as (prey1 & ga & _ & Hrun).
  apply bind_Ok in Hrun as (prey2 & gb & _ & Hrun).
  apply bind_Ok in Hrun as (preds2 & gc & _ & Hrun).
  apply bind_Ok in Hrun as ([preds3 prey3] & gd & _ & Hrun).
  apply bind_Ok in Hrun as (new_prey & ge & _ & Hrun).
  apply bind_Ok in Hrun as (new_preds & gf & _ & Hrun).
  apply bind_Ok in Hrun as (res & gg & Hres & [= <- <-]).
  exists gf, gg. exact Hres.
Qed.

(** The allocation and the resource update of a day that starts with viable
    prey. *)
Lemma allocation_viable (cfg : config) (day : Z) (st : sim_state) (g : G)
    (new_prey new_preds : list Individual) (resource' : Q) (g' : G) :
  Forall viable (st_prey st) ->
  day_stages sin cfg day st g = Ok (new_prey, new_preds, resource', g') ->
  let prey := st_prey st in
  let resource := st_resource st in
  let need := py_sum 0 (map (fun p => prey_consumption cfg * (0.5 + efficiency p)) prey) in
  let available := py_min resource need in
  let weights := py_sum 0 (map (fun p => 0.5 + efficiency p) prey) in
  prey_need cfg prey = need /\
  available_to_prey cfg resource prey = available /\
  (exists fed_prey,
     (forall g0 : G, allocate cfg resource prey g0 = Ok (fed_prey, g0)) /\
     Forall2 (fun p p' =>
        efficiency p' = efficiency p /\
        energy p' == energy p +
                     available * ((0.5 + efficiency p) / weights) * efficiency p * 0.1)
       prey fed_prey) /\
  (prey <> [] ->
     py_sum 0 (map (fun p => available * ((0.5 + efficiency p) / weights)) prey)
     == available) /\
  exists shock_factor damping,
    (shock_factor == 1 \/ (0.3 <= shock_factor /\ shock_factor <= 0.7)) /\
    (damping == 1 \/ damping == 0.98) /\
    resource' == (resource - available + resource_regen cfg) * shock_factor * damping.
Proof.
  intros Hv Hrun. cbv zeta.
  split; [reflexivity|]. split; [reflexivity|]. split; [|split].
  - destruct (allocate_run cfg (st_resource st) (st_prey st)) as (fed_prey & Heq & Hfed).
    exists fed_prey. split; [intros g0; rewrite Heq; reflexivity|].
    destruct (decide (st_prey st = [])) as [Hnil|Hne].
    { rewrite Hnil in Hfed |- *. inversion Hfed. constructor. }
    pose proof (shares_sum_positive (st_prey st) Hv Hne) as Hpos.
    rewrite total_shares_sum in Hfed by lra.
    eapply Forall2_impl; [exact Hfed|].
    intros p p' [Heff Hen]. split; [exact Heff|]. rewrite Hen. reflexivity.
  - intros Hne. pose proof (shares_sum_positive (st_prey st) Hv Hne) as Hpos.
    rewrite got_sum. unfold shares in *. field. lra.
  - destruct (day_stages_resource cfg day st g _ g' Hrun) as (g1 & g2 & Hres).
    destruct (update_resource_shape cfg day _ _ g1 _ g2 Hres)
      as (f & d & Hf & Hd & Hr).
    exists f, d. split; [exact Hf|]. split; [exact Hd|].
    simpl in Hr. rewrite Hr, (regenerate_exact cfg (st_resource st) (st_prey st)).
    reflexivity.
Qed.

Lemma history_of_appended (rows : list day_row) (row : day_row) (st st' : sim_state) :
  st_history st = history_of rows ->
  st_history st' = history_of (rows ++ [row]) ->
  appended "prey_count" (VInt (row_prey_count row)) st st' /\
  appended "pred_count" (VInt (row_pred_count row)) st st' /\
  appended "prey_avg_eff" (VFloat (row_prey_avg_eff row)) st st' /\
  appended "pred_avg_eff" (VFloat (row_pred_avg_eff row)) st st'.
Proof.
  intros Hst Hst'. unfold appended. rewrite Hst, Hst', history_of_snoc.
  unfold history_of.
  rewrite !dict6_prey_count, !dict6_pred_count, !dict6_prey_avg_eff, !dict6_pred_avg_eff.
  repeat split; eexists; split; reflexivity.
Qed.

(** The history at the start of any day of a run is a table of rows. *)
Lemma run_days_table (cfg : config) (n : nat) :
  ensures (run_days sin cfg n) (fun st => exists rows, st_history st = history_of rows).
Proof.
  eapply ensures_mono.
  - apply (run_days_ensures cfg (fun _ _ => True) (fun _ => True)).
    + intros day st _. eapply ensures_mono; [apply ensures_any|].
      intros [[prey predators] resource] _. split; exact I.
    + apply ensures_any.
  - intros st (rows & [Hh _] & _). eauto.
Qed.

(** C3: on every day of a run, the counts and the average efficiencies
    appended to the history are those of the populations as the stages leave
    them; the caps are applied afterwards and only to the lists carried into
    the next day, which are the first 2000 prey and the first 500 predators.
    So on a day where the uncapped size exceeds the cap, the recorded count
    exceeds the size of the list carried forward. *)
Theorem record_before_cap (cfg : config) (n : nat) (g0 : G) (st : sim_state) (g : G)
    (st' : sim_state) (g' : G) :
  run_days sin cfg n g0 = Ok (st, g) ->
  sim_day sin cfg (Z.of_nat n) st g = Ok (st', g') ->
  exists prey predators resource,
    day_stages sin cfg (Z.of_nat n) st g = Ok (prey, predators, resource, g') /\
    appended "prey_count" (VInt (Z.of_nat (length prey))) st st' /\
    appended "pred_count" (VInt (Z.of_nat (length predators))) st st' /\
    appended "prey_avg_eff" (VFloat (mean_eff prey)) st st' /\
    appended "pred_avg_eff" (VFloat (mean_eff predators)) st st' /\
    st_prey st' = take 2000 prey /\
    st_predators st' = take 500 predators /\
    ((2000 < length prey)%nat -> (length (st_prey st') < length prey)%nat) /\
    ((500 < length predators)%nat ->
       (length (st_predators st') < length predators)%nat).
Proof.
  intros Hst Hday. destruct (run_days_table cfg n g0 st g Hst) as (rows & Hrows).
  destruct (sim_day_rows cfg _ st rows g st' g' Hrows Hday)
    as (prey & predators & resource & Hstages & Hh & Hp & Hq & Hlp & Hlq).
  exists prey, predators, resource. split; [exact Hstages|].
  destruct (history_of_appended rows _ st st' Hrows Hh) as (H1 & H2 & H3 & H4).
  repeat (split; [assumption|]). assumption.
Qed.

(** C9: on every day of a run the allocation stage computes [prey_need] as
    the sum of [prey_consumption * (0.5 + efficiency)] over the prey and
    [available_to_prey] as [min(resource, prey_need)]; it keeps every
    efficiency and raises each prey's energy by
    [available * (weight / total_weights) * efficiency * 0.1] with
    [weight = 0.5 + efficiency]; the amounts handed out add up to
    [available] exactly; and the resource at the end of the day is
    [resource - available + resource_regen], the pool less the amount
    allocated (not the demand), scaled by the shock factor (one without a
    shock) and by the damping factor (one or 0.98). *)
Theorem allocation_exact (cfg : config) (n : nat) (g0 : G) (st : sim_state) (g : G)
    (new_prey new_preds : list Individual) (resource' : Q) (g' : G) :
  run_days sin cfg n g0 = Ok (st, g) ->
  day_stages sin cfg (Z.of_nat n) st g = Ok (new_prey, new_preds, resource', g') ->
  let prey := st_prey st in
  let resource := st_resource st in
  let need := py_sum 0 (map (fun p => prey_consumption cfg * (0.5 + efficiency p)) prey) in
  let available := py_min resource need in
  let weights := py_sum 0 (map (fun p => 0.5 + efficiency p) prey) in
  prey_need cfg prey = need /\
  available_to_prey cfg resource prey = available /\
  (exists fed_prey,
     (forall g1 : G, allocate cfg resource prey g1 = Ok (fed_prey, g1)) /\
     Forall2 (fun p p' =>
        efficiency p' = efficiency p /\
        energy p' == energy p +
                     available * ((0.5 + efficiency p) / weights) * efficiency p * 0.1)
       prey fed_prey) /\
  (prey <> [] ->
     py_sum 0 (map (fun p => available * ((0.5 + efficiency p) / weights)) prey)
     == available) /\
  exists shock_factor damping,
    (shock_factor == 1 \/ (0.3 <= shock_factor /\ shock_factor <= 0.7)) /\
    (damping == 1 \/ damping == 0.98) /\
    resource' == (resource - available + resource_regen cfg) * shock_factor * damping.
Proof.
  intros Hst Hday. destruct (run_days_viable cfg n g0 st g Hst) as [Hv _].
  exact (allocation_viable cfg _ st g new_prey new_preds resource' g' Hv Hday).
Qed.

End Stages.

(** ** The properties on concrete runs *)

(** The shape of the history of the demo run. *)
Lemma history_shape_witness :
  dom demo_run.1 = list_to_set metric_keys /\
  (forall key, key ∈ metric_keys ->
     exists l, demo_run.1 !! key = Some l /\ length l = Z.to_nat (days demo_config)) /\
  demo_run.1 !! "day" = Some (VInt <$> py_range (days demo_config)).
Proof.
  apply (history_shape (H := scripted demo_book) sin_series demo_config []
           demo_run.1 demo_run.2).
  reflexivity.
Defined.

Example demo_run_counts :
  demo_run.1 !! "day" = Some [VInt 0; VInt 1; VInt 2] /\
  demo_run.1 !! "prey_count" = Some [VInt 2; VInt 1; VInt 1] /\
  demo_run.1 !! "pred_count" = Some [VInt 1; VInt 0; VInt 0].
Proof. repeat split. Qed.

(** Day 0 of the crowded run, evaluated. *)
Lemma crowded_run :
  run_days (H := scripted no_draws) sin_series crowded_config 0 [] = Ok crowded_start /\
  sim_day (H := scripted no_draws) sin_series crowded_config (Z.of_nat 0)
    crowded_start.1 crowded_start.2 = Ok crowded_next.
Proof.
  split; [vm_compute; reflexivity|].
  rewrite (sim_day_run sin_series crowded_config _ _ []) by reflexivity.
  replace (day_stages sin_series crowded_config (Z.of_nat 0)
             crowded_start.1 crowded_start.2)
    with (Ok crowded_stages) by (vm_compute; reflexivity).
  reflexivity.
Qed.

Lemma crowded_run_day1 :
  run_days (H := scripted no_draws) sin_series crowded_config 1 [] = Ok crowded_next.
Proof.
  destruct crowded_run as [Hstart Hday].
  rewrite run_days_succ. unfold bind. rewrite Hstart. exact Hday.
Qed.

(** Day 0 of the crowded run records before it caps. *)
Lemma record_before_cap_witness :
  exists prey predators resource,
    day_stages (H := scripted no_draws) sin_series crowded_config (Z.of_nat 0)
      crowded_start.1 crowded_start.2 = Ok (prey, predators, resource, crowded_next.2) /\
    appended "prey_count" (VInt (Z.of_nat (length prey))) crowded_start.1 crowded_next.1 /\
    appended "pred_count" (VInt (Z.of_nat (length predators)))
      crowded_start.1 crowded_next.1 /\
    appended "prey_avg_eff" (VFloat (mean_eff prey)) crowded_start.1 crowded_next.1 /\
    appended "pred_avg_eff" (VFloat (mean_eff predators)) crowded_start.1 crowded_next.1 /\
    st_prey crowded_next.1 = take 2000 prey /\
    st_predators crowded_next.1 = take 500 predators /\
    ((2000 < length prey)%nat -> (length (st_prey crowded_next.1) < length prey)%nat) /\
    ((500 < length predators)%nat ->
       (length (st_predators crowded_next.1) < length predators)%nat).
Proof.
  apply (record_before_cap (H := scripted no_draws) sin_series crowded_config 0 []
           crowded_start.1 crowded_start.2 crowded_next.1 crowded_next.2).
  - exact (proj1 crowded_run).
  - exact (proj2 crowded_run).
Defined.

(** On day 0 of the crowded run 501 predators are recorded and 500 are
    carried into day 1. *)
Example crowded_day0 :
  st_history crowded_next.1 !! "pred_count" = Some [VInt 501] /\
  length (st_predators crowded_next.1) = 500%nat.
Proof. split; reflexivity. Qed.

(** The state after day 0 of the crowded run is within the caps. *)
Lemma caps_enforced_witness :
  (length (st_prey crowded_next.1) <= 2000)%nat /\
  (length (st_predators crowded_next.1) <= 500)%nat.
Proof.
  apply (caps_enforced (H := scripted no_draws) sin_series crowded_config 1 []
           crowded_next.1 crowded_next.2).
  - exact crowded_run_day1.
  - left. lia.
Defined.

(** The resource recorded in the demo run. *)
Lemma resource_nonneg_witness :
  exists l, demo_run.1 !! "resource" = Some l /\
            length l = Z.to_nat (days demo_config) /\
            Forall (fun v => exists x, v = VFloat x /\ 0 <= x) l.
Proof.
  apply (resource_nonneg (H := scripted demo_book) sin_series demo_config []
           demo_run.1 demo_run.2).
  - vm_compute. discriminate.
  - reflexivity.
Defined.

(** The averages recorded in the demo run. *)
Lemma avg_eff_bounds_witness :
  exists prey_counts prey_avgs pred_counts pred_avgs,
    demo_run.1 !! "prey_count" = Some prey_counts /\
    demo_run.1 !! "prey_avg_eff" = Some prey_avgs /\
    demo_run.1 !! "pred_count" = Some pred_counts /\
    demo_run.1 !! "pred_avg_eff" = Some pred_avgs /\
    Forall2 avg_ok prey_counts prey_avgs /\ Forall2 avg_ok pred_counts pred_avgs.
Proof.
  apply (avg_eff_bounds (H := scripted demo_book) sin_series demo_config []
           demo_run.1 demo_run.2).
  reflexivity.
Defined.

(** The barren run records no prey. *)
Lemma no_spontaneous_prey_witness :
  exists h g', run_sim (H := scripted demo_book) sin_series barren_config [] = Ok (h, g') /\
    h !! "prey_count" = Some (replicate (Z.to_nat (days barren_config)) (VInt 0)).
Proof.
  apply (no_spontaneous_prey (H := scripted demo_book) sin_series barren_config []).
  - reflexivity.
  - unfold seed_ok. simpl. lia.
  - vm_compute. discriminate.
Defined.

(** The idle run returns the empty history. *)
Lemma no_days_empty_history_witness :
  exists h g', run_sim (H := scripted demo_book) sin_series idle_config [] = Ok (h, g') /\
    dom h = list_to_set metric_keys /\
    forall key, key ∈ metric_keys -> h !! key = Some [].
Proof.
  apply (no_days_empty_history (H := scripted demo_book) sin_series idle_config []).
  - simpl. lia.
  - unfold seed_ok. simpl. lia.
Defined.

(** The run on the rogue configuration returns. *)
Lemma run_sim_total_witness :
  exists h g', run_sim (H := scripted mersenne_draws) sin_series rogue_config [] = Ok (h, g') /\
    forall key, key ∈ metric_keys ->
      exists l, h !! key = Some l /\ length l = Z.to_nat (days rogue_config).
Proof.
  apply (run_sim_total (H := scripted mersenne_draws) sin_series rogue_config []).
  - unfold seed_ok. simpl. lia.
  - vm_compute. discriminate.
  - vm_compute. discriminate.
Defined.

(** The allocation on day 0 of the demo run. *)
Lemma allocation_exact_witness :
  let prey := st_prey demo_start.1 in
  let resource := st_resource demo_start.1 in
  let need :=
    py_sum 0 (map (fun p => prey_consumption demo_config * (0.5 + efficiency p)) prey) in
  let available := py_min resource need in
  let weights := py_sum 0 (map (fun p => 0.5 + efficiency p) prey) in
  prey_need demo_config prey = need /\
  available_to_prey demo_config resource prey = available /\
  (exists fed_prey,
     (forall g1 : list Q, allocate demo_config resource prey g1 = Ok (fed_prey, g1)) /\
     Forall2 (fun p p' =>
        efficiency p' = efficiency p /\
        energy p' == energy p +
                     available * ((0.5 + efficiency p) / weights) * efficiency p * 0.1)
       prey fed_prey) /\
  (prey <> [] ->
     py_sum 0 (map (fun p => available * ((0.5 + efficiency p) / weights)) prey)
     == available) /\
  exists shock_factor damping,
    (shock_factor == 1 \/ (0.3 <= shock_factor /\ shock_factor <= 0.7)) /\
    (damping == 1 \/ damping == 0.98) /\
    demo_day0.1.2 ==
      (resource - available + resource_regen demo_config) * shock_factor * damping.
Proof.
  apply (allocation_exact (H := scripted demo_book) sin_series demo_config 0 []
           demo_start.1 demo_start.2 demo_day0.1.1.1 demo_day0.1.1.2 demo_day0.1.2
           demo_day0.2).
  - reflexivity.
  - reflexivity.
Defined.

(** ** Where the spec and the code part *)

(** C5 (as stated) fails: a configuration with negative initial populations,
    a negative initial resource and a [shock_chance] of 2 is not rejected;
    the run performs day 0 and returns a history with one entry per
    sequence. *)
Lemma invalid_config_accepted :
  ((init_prey rogue_config < 0)%Z /\ (init_pred rogue_config < 0)%Z /\
   init_resource rogue_config < 0 /\ 1 < shock_chance rogue_config) /\
  run_sim (H := scripted mersenne_draws) sin_series rogue_config [] = Ok rogue_run /\
  rogue_run.1 !! "day" = Some [VInt 0] /\
  rogue_run.1 !! "prey_count" = Some [VInt 0] /\
  rogue_run.1 !! "pred_count" = Some [VInt 0].
Proof. repeat split. Qed.

(** C6 (as stated) fails: with [resource_regen = -1.0] and an empty
    ecosystem starting from [init_resource = 0.0], the resource recorded on
    day 0 is [-1]; the floor at zero is applied before the regeneration is
    added. (The draw 0.6394 of the seed 42 means no shock; a shock would
    scale the value and leave it negative.) *)
Lemma negative_regen_negative_resource :
  run_sim (H := scripted mersenne_draws) sin_series drain_config [] = Ok drain_run /\
  drain_run.1 !! "resource" = Some [VFloat (-1.00)] /\ -1.00 < 0.
Proof. repeat split. Qed.

(** C7 (as stated) fails: with the seed 52 the prey has efficiency 0.9913
    and its child, whose mutation adds 0.0226, has efficiency 1.0139; the two
    prey recorded on day 0 have an average efficiency of 1.0026, above
    [1.0]. *)
Lemma mutation_exceeds_one :
  run_sim (H := scripted mersenne_draws) sin_series drift_config [] = Ok drift_run /\
  drift_run.1 !! "prey_count" = Some [VInt 2] /\
  (exists x, drift_run.1 !! "prey_avg_eff" = Some [VFloat x] /\
             1.0026 < x /\ x < 1.0027).
Proof.
  split; [reflexivity|]. split; [reflexivity|].
  eexists. split; [reflexivity|]. split; reflexivity.
Qed.

(** C8 (as stated) fails: with [init_prey = 0] the run does not always go
    through its days. With the seed [-1] it raises [ValueError] at the call
    of [np.random.seed]; with a predator reproduction threshold of [-1] it
    raises [ZeroDivisionError] in the survival check of the first predator. *)
Lemma empty_prey_run_raises :
  (init_prey barren_bad_seed = 0%Z /\
   run_sim (H := scripted mersenne_draws) sin_series barren_bad_seed [] = Raise ValueError) /\
  (init_prey barren_zero_div = 0%Z /\
   run_sim (H := scripted mersenne_draws) sin_series barren_zero_div [] =
     Raise ZeroDivisionError).
Proof. repeat split. Qed.

(** C10 (as stated) fails: with [days = 0] and the seed [-1], [run_sim]
    raises [ValueError] at the call of [np.random.seed] and returns no
    history. *)
Lemma no_days_bad_seed_raises :
  (days idle_bad_seed <= 0)%Z /\
  run_sim (H := scripted mersenne_draws) sin_series idle_bad_seed [] = Raise ValueError.
Proof. split; [simpl; lia|reflexivity]. Qed.

(** ** Further properties of the stages and of a run *)

Section Further.

Context {G : Type} `{RandomGen G}.

Variable sin : Q -> Q.

(** *** Lists of rows *)

Lemma steps_nil {A} (R : A -> A -> Prop) : steps R [].
Proof. intros k a b Ha. rewrite lookup_nil in Ha. discriminate. Qed.

Lemma steps_snoc {A} (R : A -> A -> Prop) (l : list A) (x : A) :
  steps R l -> (forall a, last l = Some a -> R a x) -> steps R (l ++ [x]).
Proof.
  intros Hl Hx k a b Ha Hb.
  apply lookup_snoc_Some in Hb as [[Hk Hb] | [Hk <-]].
  - rewrite lookup_app_l in Ha by lia. eapply Hl; eassumption.
  - rewrite lookup_app_l in Ha by lia. apply Hx.
    rewrite last_lookup, <- Hk. exact Ha.
Qed.

Lemma steps_fmap {A B} (f : A -> B) (R : B -> B -> Prop) (l : list A) :
  steps (fun a b => R (f a) (f b)) l -> steps R (f <$> l).
Proof.
  intros Hl k a b Ha Hb. rewrite list_lookup_fmap in Ha, Hb.
  destruct (l !! k) as [a0|] eqn:Ea; [|discriminate].
  destruct (l !! S k) as [b0|] eqn:Eb; [|discriminate].
  injection Ha as <-. injection Hb as <-. eapply Hl; eassumption.
Qed.

(** *** A loop invariant that sees the rows recorded so far *)

Section Relational.

Variable cfg : config.
Variable J : list day_row -> list Individual -> list Individual -> Q -> Prop.

Hypothesis day_rel : forall day st rows,
  J rows (st_prey st) (st_predators st) (st_resource st) ->
  ensures (day_stages sin cfg day st)
    (fun out => let '(prey, predators, resource) := out in
       J (rows ++ [row_of day prey predators resource])
         (safety_cap PREY_CAP prey) (safety_cap PRED_CAP predators) resource).

Lemma sim_loop_rel (ds : list Z) (st : sim_state) (rows : list day_row) :
  st_history st = history_of rows ->
  J rows (st_prey st) (st_predators st) (st_resource st) ->
  ensures (sim_loop sin cfg ds st)
    (fun st' => exists rows',
       st_history st' = history_of (rows ++ rows') /\
       length rows' = length ds /\
       J (rows ++ rows') (st_prey st') (st_predators st') (st_resource st')).
Proof.
  revert st rows. induction ds as [|day ds IH]; intros st rows Hh HJ; simpl.
  - apply ensures_ret. exists []. rewrite app_nil_r. auto.
  - eapply ensures_bind.
    + apply (sim_day_ensures sin cfg day st rows
               (fun st' => exists row,
                  st_history st' = history_of (rows ++ [row]) /\
                  J (rows ++ [row]) (st_prey st') (st_predators st') (st_resource st')));
        [exact Hh|].
      eapply ensures_mono; [apply (day_rel day st rows HJ)|].
      intros [[prey predators] resource] HJ'.
      exists (row_of day prey predators resource). split; [reflexivity|exact HJ'].
    + intros st1 (row & Hh1 & HJ1).
      eapply ensures_mono; [apply (IH st1 (rows ++ [row]) Hh1 HJ1)|].
      intros st' (rows' & Hh' & Hlen & HJ'). exists (row :: rows').
      rewrite <- app_assoc in Hh', HJ'. simpl in *. auto.
Qed.

Hypothesis init_rel : ensures (init_state cfg)
  (fun st => J [] (st_prey st) (st_predators st) (st_resource st)).

Lemma run_days_rel (n : nat) :
  ensures (run_days sin cfg n)
    (fun st => exists rows,
       st_history st = history_of rows /\ length rows = n /\
       J rows (st_prey st) (st_predators st) (st_resource st)).
Proof.
  unfold run_days. eapply ensures_bind.
  - apply ensures_and; [apply init_state_ensures|apply init_rel].
  - intros st0 [(Hh & _) HJ]. eapply ensures_mono.
    + apply (sim_loop_rel _ st0 [] Hh HJ).
    + intros st (rows & Hh' & Hlen & HJ'). exists rows.
      rewrite py_range_length, Nat2Z.id in Hlen. auto.
Qed.

Lemma run_sim_rel :
  ensures (run_sim sin cfg)
    (fun h => exists rows prey predators resource,
       h = history_of rows /\ length rows = Z.to_nat (days cfg) /\
       J rows prey predators resource).
Proof.
  unfold run_sim. eapply ensures_bind.
  - apply ensures_and; [apply init_state_ensures|apply init_rel].
  - intros st0 [(Hh & _) HJ]. eapply ensures_bind.
    + apply (sim_loop_rel _ st0 [] Hh HJ).
    + intros st (rows & Hh' & Hlen & HJ'). apply ensures_ret.
      exists rows, (st_prey st), (st_predators st), (st_resource st).
      rewrite py_range_length in Hlen. auto.
Qed.

End Relational.

(** *** The stages of a day, one by one *)

(** What a returning [day_stages] went through: the allocation, the two
    shuffles, the predation, the two reproduction loops and the resource
    update, each from the generator state the previous one left. *)
Lemma day_stages_inv (cfg : config) (day : Z) (st : sim_state) g out g' :
  day_stages sin cfg day st g = Ok (out, g') ->
  exists prey1 prey2 preds2 preds3 prey3 g2 g3 g4 g5,
    Forall2 (fed (available_to_prey cfg (st_resource st) (st_prey st))
                 (total_shares (st_prey st))) (st_prey st) prey1 /\
    prey2 ≡ₚ prey1 /\ preds2 ≡ₚ st_predators st /\
    predation cfg preds2 prey2 g2 = Ok (preds3, prey3, g3) /\
    reproduce (prey_species cfg) prey3 g3 = Ok (out.1.1, g4) /\
    reproduce (pred_species cfg) preds3 g4 = Ok (out.1.2, g5) /\
    update_resource sin cfg day (st_resource st)
      (available_to_prey cfg (st_resource st) (st_prey st)) g5 = Ok (out.2, g').
Proof.
  unfold day_stages. intros Hrun.
  destruct (allocate_run (G := G) cfg (st_resource st) (st_prey st))
    as (prey1 & Heq & Hfed).
  rewrite Heq, bind_ret_l in Hrun.
  apply bind_Ok in Hrun as (prey2 & g1 & Hs1 & Hrun).
  apply bind_Ok in Hrun as (preds2 & g2 & Hs2 & Hrun).
  apply bind_Ok in Hrun as ([preds3 prey3] & g3 & Hpred & Hrun).
  apply bind_Ok in Hrun as (new_prey & g4 & Hrp & Hrun).
  apply bind_Ok in Hrun as (new_preds & g5 & Hrq & Hrun).
  apply bind_Ok in Hrun as (res & g6 & Hres & [= <- <-]).
  exists prey1, prey2, preds2, preds3, prey3, g2, g3, g4, g5. simpl.
  split; [exact Hfed|].
  split; [exact (random_shuffle_ensures prey1 g prey2 g1 Hs1)|].
  split; [exact (random_shuffle_ensures (st_predators st) g1 preds2 g2 Hs2)|].
  auto.
Qed.

(** *** Predation *)

Lemma predation_hunted (cfg : config) (predators prey : list Individual) :
  ensures (predation cfg predators prey)
    (fun out => Forall2 (hunted cfg) predators out.1 /\
                exists k, out.2 = drop k prey /\
                          (k <= length predators)%nat /\ (k <= length prey)%nat).
Proof.
  assert (Hsame : forall l, Forall2 (hunted cfg) l l).
  { intros l. apply Forall_Forall2_diag, Forall_forall. intros p _.
    split; [reflexivity|left; reflexivity]. }
  revert prey. induction predators as [|pred rest IH]; intros prey; simpl.
  - apply ensures_ret. split; [constructor|]. exists O. simpl. split; [reflexivity|lia].
  - destruct prey as [|target prey'].
    + apply ensures_ret. split; [apply Hsame|]. exists O. simpl.
      split; [reflexivity|lia].
    + eapply ensures_bind; [apply ensures_any|]. intros r _.
      destruct (r <? 0.3 + 0.4 * efficiency pred).
      * eapply ensures_bind; [apply IH|].
        intros [rest' prey''] [Hrest (k & Hk & Hk1 & Hk2)].
        apply ensures_ret. simpl in *. split.
        -- constructor; [|exact Hrest]. split; [reflexivity|right; reflexivity].
        -- exists (S k). simpl. split; [exact Hk|lia].
      * eapply ensures_bind; [apply IH|].
        intros [rest' prey''] [Hrest (k & Hk & Hk1 & Hk2)].
        apply ensures_ret. simpl in *. split.
        -- constructor; [|exact Hrest]. split; [reflexivity|left; reflexivity].
        -- exists k. split; [exact Hk|]. simpl in Hk2. lia.
Qed.

(** X1: predation (lines 68-79) keeps the predators, their order and their
    efficiencies, and each predator's energy either stays or grows once by
    [pred_consumption * efficiency]; the prey left are the prey presented
    less a number of prey taken from the front, and that number exceeds
    neither the number of predators nor the number of prey. Without prey the
    predators are returned as they are and no number is drawn. *)
Theorem predation_accounting (cfg : config) (predators prey : list Individual)
    (g : G) (predators' prey' : list Individual) (g' : G) :
  predation cfg predators prey g = Ok (predators', prey', g') ->
  Forall2 (hunted cfg) predators predators' /\
  (exists k, prey' = drop k prey /\
             (k <= length predators)%nat /\ (k <= length prey)%nat /\
             (length prey' + k = length prey)%nat) /\
  (prey = [] -> predators' = predators /\ g' = g).
Proof.
  intros Hrun.
  destruct (predation_hunted cfg predators prey g _ g' Hrun)
    as [Hh (k & Hk & Hk1 & Hk2)]. simpl in Hh, Hk.
  split; [exact Hh|]. split.
  - exists k. split; [exact Hk|]. split; [exact Hk1|]. split; [exact Hk2|].
    rewrite Hk, length_drop. lia.
  - intros ->. destruct predators; simpl in Hrun; injection Hrun as <- _ <-; auto.
Qed.

(** *** Energies after reproduction *)

Lemma life_cycle_energy (sp : species) (p : Individual) :
  0 < decay sp ->
  ensures (life_cycle sp p)
    (Forall (fun q => energy q = child_energy sp \/
                      min_energy sp * decay sp < energy q)).
Proof.
  intros Hd. unfold life_cycle.
  eapply ensures_bind.
  - instantiate (1 := fun out => Forall (fun q => energy q = child_energy sp) out.1).
    unfold reproduce_one. destruct (energy p >? repro_thresh sp).
    + eapply ensures_bind; [apply ensures_any|]. intros r _.
      destruct (r <? repro_prob sp).
      * eapply ensures_bind; [apply ensures_any|]. intros u _.
        apply ensures_ret. simpl. constructor; [reflexivity|constructor].
      * apply ensures_ret. constructor.
    + apply ensures_ret. constructor.
  - intros [children p'] Hch. simpl in Hch.
    eapply ensures_bind.
    + instantiate (1 := Forall (fun q => min_energy sp * decay sp < energy q)).
      unfold survive_one. destruct (energy p' >? min_energy sp) eqn:E.
      * apply Qltb_lt in E.
        eapply ensures_bind; [apply ensures_any|]. intros r _.
        eapply ensures_bind; [apply ensures_any|]. intros q _.
        destruct (r <? _); apply ensures_ret; [|constructor].
        constructor; [|constructor]. simpl. nra.
      * apply ensures_ret. constructor.
    + intros survivors Hs. apply ensures_ret. apply Forall_app. split.
      * eapply Forall_impl; [exact Hch|]. intros q Hq. left. exact Hq.
      * eapply Forall_impl; [exact Hs|]. intros q Hq. right. exact Hq.
Qed.

Lemma reproduce_energy (sp : species) (pop : list Individual) :
  0 < decay sp ->
  ensures (reproduce sp pop)
    (Forall (fun q => energy q = child_energy sp \/
                      min_energy sp * decay sp < energy q)).
Proof.
  intros Hd. induction pop as [|p rest IH]; simpl.
  - apply ensures_ret. constructor.
  - eapply ensures_bind; [apply (life_cycle_energy sp p Hd)|]. intros added Ha.
    eapply ensures_bind; [apply IH|]. intros more Hm.
    apply ensures_ret. apply Forall_app. split; assumption.
Qed.

Lemma init_state_energy (cfg : config) :
  ensures (init_state cfg)
    (fun st => Forall (fun p => energy p = 1.0) (st_prey st) /\
               Forall (fun p => energy p = 2.0) (st_predators st)).
Proof.
  unfold init_state.
  eapply ensures_bind; [apply ensures_any|]. intros _ _.
  eapply ensures_bind; [apply ensures_any|]. intros _ _.
  eapply ensures_bind; [apply spawn_ensures|]. intros prey [_ Hp].
  eapply ensures_bind; [apply spawn_ensures|]. intros predators [_ Hq].
  apply ensures_ret. simpl.
  split; (eapply Forall_impl; [eassumption|]); intros p [He _]; exact He.
Qed.

(** X2: every individual that a day of a run starts with has a positive
    energy: above 0.09 for a prey and above 0.46 for a predator. The initial
    individuals and the newborns have their baseline energy (1.0 and 2.0),
    and a survivor had an energy above the minimum (0.1 or 0.5) before the
    decay (0.9 or 0.92). *)
Theorem energy_floor (cfg : config) (n : nat) (g : G) (st : sim_state) (g' : G) :
  run_days sin cfg n g = Ok (st, g') ->
  Forall (fun p => 0.09 < energy p) (st_prey st) /\
  Forall (fun p => 0.46 < energy p) (st_predators st).
Proof.
  intros Hrun.
  destruct (run_days_ensures sin cfg
    (fun prey predators => Forall (fun p => 0.09 < energy p) prey /\
                           Forall (fun p => 0.46 < energy p) predators)
    (fun _ => True)) with (n := n) (g := g) (a := st) (g' := g')
    as (rows & [_ Hinv] & _); [| |exact Hrun|exact Hinv].
  - intros day st0 _ g0 [[prey predators] resource] g1 Hday.
    destruct (day_stages_inv cfg day st0 g0 _ g1 Hday)
      as (prey1 & prey2 & preds2 & preds3 & prey3 & g2 & g3 & g4 & g5 &
          _ & _ & _ & _ & Hrp & Hrq & _).
    simpl in Hrp, Hrq.
    pose proof (reproduce_energy (prey_species cfg) prey3 eq_refl g3 _ g4 Hrp) as Hp.
    pose proof (reproduce_energy (pred_species cfg) preds3 eq_refl g4 _ g5 Hrq) as Hq.
    split; [exact I|]. rewrite !safety_cap_take.
    split; apply Forall_take; (eapply Forall_impl; [eassumption|]);
      simpl; intros q [-> | Hq0]; lra.
  - eapply ensures_mono; [apply init_state_energy|].
    intros st0 [Hp Hq].
    split; (eapply Forall_impl; [eassumption|]); simpl; intros q ->; lra.
Qed.

(** *** Growth of the recorded counts *)

Lemma steps_zero (cap : Z) (l : list Z) :
  (0 <= cap)%Z -> steps (doubles cap) l ->
  forall i j c, (i <= j)%nat -> l !! i = Some 0%Z -> l !! j = Some c -> c = 0%Z.
Proof.
  intros Hcap Hl i j. induction j as [|j IH]; intros c Hij Hi Hj.
  - replace i with O in Hi by lia. congruence.
  - destruct (decide (i = S j)) as [->|Hne]; [congruence|].
    destruct (l !! j) as [c'|] eqn:Ej.
    + assert (c' = 0%Z) by (apply IH; [lia|exact Hi|reflexivity]). subst c'.
      pose proof (Hl j 0%Z c Ej Hj) as Hd. unfold doubles in Hd. lia.
    + apply lookup_ge_None in Ej. apply lookup_lt_Some in Hj. lia.
Qed.

Lemma day_stages_lengths (cfg : config) (day : Z) (st : sim_state) :
  ensures (day_stages sin cfg day st)
    (fun out => (length out.1.1 <= 2 * length (st_prey st))%nat /\
                (length out.1.2 <= 2 * length (st_predators st))%nat).
Proof.
  intros g out g' Hday.
  destruct (day_stages_inv cfg day st g out g' Hday)
    as (prey1 & prey2 & preds2 & preds3 & prey3 & g2 & g3 & g4 & g5 &
        Hfed & Hp2 & Hq2 & Hpred & Hrp & Hrq & _).
  destruct (predation_hunted cfg preds2 prey2 g2 _ g3 Hpred)
    as [Hh (k & Hk & _ & _)]. simpl in Hh, Hk.
  destruct (reproduce_ensures _ _ g3 _ g4 Hrp) as [_ Hlp].
  destruct (reproduce_ensures _ _ g4 _ g5 Hrq) as [_ Hlq].
  apply Forall2_length in Hfed, Hh. apply Permutation_length in Hp2, Hq2.
  rewrite Hk, length_drop in Hlp. split; lia.
Qed.

Lemma run_sim_growth (cfg : config) :
  ensures (run_sim sin cfg)
    (fun h => exists rows, h = history_of rows /\ growth_rows cfg rows).
Proof.
  eapply ensures_mono.
  - apply (run_sim_rel cfg
      (fun rows prey predators _ =>
         length prey = carried_size 2000 (init_prey cfg) row_prey_count rows /\
         length predators = carried_size 500 (init_pred cfg) row_pred_count rows /\
         Forall (fun r => (0 <= row_prey_count r)%Z /\ (0 <= row_pred_count r)%Z) rows /\
         growth_rows cfg rows)).
    + intros day st rows (Hp & Hq & Hpos & Hfirst & Hsteps).
      eapply ensures_mono; [apply day_stages_lengths|].
      intros [[prey predators] resource] [Hlp Hlq]. simpl in Hlp, Hlq.
      unfold carried_size in *. rewrite !last_snoc, !safety_cap_length.
      unfold PREY_CAP, PRED_CAP. simpl.
      rewrite !Nat2Z.id. split; [reflexivity|]. split; [reflexivity|].
      split; [|split].
      * apply Forall_app. split; [exact Hpos|].
        constructor; [simpl; lia|constructor].
      * intros r Hr. destruct rows as [|r0 rows].
        -- simpl in Hr. injection Hr as <-. simpl in *. lia.
        -- simpl in Hr. injection Hr as <-. apply Hfirst. reflexivity.
      * apply steps_snoc; [exact Hsteps|]. intros a Ha. rewrite Ha in Hp, Hq.
        apply last_Some_elem_of in Ha.
        destruct (proj1 (Forall_forall _ _) Hpos a Ha) as [Ha1 Ha2].
        unfold doubles. simpl. lia.
    + eapply ensures_mono; [apply init_state_ensures|].
      intros st (_ & _ & Hp & Hq & _). unfold carried_size. simpl.
      split; [exact Hp|]. split; [exact Hq|]. split; [constructor|]. split.
      * intros r Hr. discriminate.
      * apply steps_nil.
  - intros h (rows & _ & _ & _ & Hh & _ & _ & _ & _ & Hg). eauto.
Qed.

Lemma growth_rows_counts (cfg : config) (rows : list day_row) :
  growth_rows cfg rows ->
  ((forall c, (row_prey_count <$> rows) !! O = Some c ->
      (0 <= c <= 2 * Z.max 0 (init_prey cfg))%Z) /\
   steps (doubles 2000) (row_prey_count <$> rows)) /\
  ((forall c, (row_pred_count <$> rows) !! O = Some c ->
      (0 <= c <= 2 * Z.max 0 (init_pred cfg))%Z) /\
   steps (doubles 500) (row_pred_count <$> rows)).
Proof.
  intros [Hfirst Hsteps]. split; split.
  - intros c Hc. apply list_lookup_fmap_Some in Hc as (r & -> & Hr).
    apply (Hfirst r Hr).
  - apply steps_fmap. intros k a b Ha Hb. apply (Hsteps k a b Ha Hb).
  - intros c Hc. apply list_lookup_fmap_Some in Hc as (r & -> & Hr).
    apply (Hfirst r Hr).
  - apply steps_fmap. intros k a b Ha Hb. apply (Hsteps k a b Ha Hb).
Qed.

Lemma history_of_counts (rows : list day_row) :
  history_of rows !! "prey_count" = Some (VInt <$> (row_prey_count <$> rows)) /\
  history_of rows !! "pred_count" = Some (VInt <$> (row_pred_count <$> rows)).
Proof.
  unfold history_of. rewrite dict6_prey_count, dict6_pred_count.
  rewrite !list_fmap_compose. split; reflexivity.
Qed.

(** X3: a population at most doubles from one recorded day to the next,
    counted from what the cap lets through: the count recorded on day 0 is
    at most twice the initial size, and every later count is at most twice
    the smaller of the previous count and the cap (2000 prey, 500
    predators). Each individual leaves at most itself and one child. *)
Theorem growth_bounded (cfg : config) (g : G) (h : history) (g' : G) :
  run_sim sin cfg g = Ok (h, g') ->
  exists prey_counts pred_counts : list Z,
    h !! "prey_count" = Some (VInt <$> prey_counts) /\
    h !! "pred_count" = Some (VInt <$> pred_counts) /\
    (forall c, prey_counts !! O = Some c ->
       (0 <= c <= 2 * Z.max 0 (init_prey cfg))%Z) /\
    steps (doubles 2000) prey_counts /\
    (forall c, pred_counts !! O = Some c ->
       (0 <= c <= 2 * Z.max 0 (init_pred cfg))%Z) /\
    steps (doubles 500) pred_counts.
Proof.
  intros Hrun. destruct (run_sim_growth cfg g h g' Hrun) as (rows & -> & Hg).
  destruct (growth_rows_counts cfg rows Hg) as [[Hp0 Hp] [Hq0 Hq]].
  destruct (history_of_counts rows) as [Hpc Hqc].
  exists (row_prey_count <$> rows), (row_pred_count <$> rows). auto 10.
Qed.

(** X4: extinction is permanent. Once the count recorded for a population
    is 0, it is 0 on every later day of the run, for the prey and for the
    predators alike: no stage creates an individual without a parent. *)
Theorem extinction_permanent (cfg : config) (g : G) (h : history) (g' : G) :
  run_sim sin cfg g = Ok (h, g') ->
  exists prey_counts pred_counts : list Z,
    h !! "prey_count" = Some (VInt <$> prey_counts) /\
    h !! "pred_count" = Some (VInt <$> pred_counts) /\
    (forall i j c, (i <= j)%nat ->
       prey_counts !! i = Some 0%Z -> prey_counts !! j = Some c -> c = 0%Z) /\
    (forall i j c, (i <= j)%nat ->
       pred_counts !! i = Some 0%Z -> pred_counts !! j = Some c -> c = 0%Z).
Proof.
  intros Hrun. destruct (run_sim_growth cfg g h g' Hrun) as (rows & -> & Hg).
  destruct (growth_rows_counts cfg rows Hg) as [[_ Hp] [_ Hq]].
  destruct (history_of_counts rows) as [Hpc Hqc].
  exists (row_prey_count <$> rows), (row_pred_count <$> rows).
  split; [exact Hpc|]. split; [exact Hqc|].
  split; [apply (steps_zero 2000)|apply (steps_zero 500)]; (lia || assumption).
Qed.

(** *** Drift of the efficiencies *)













Lemma init_state_spawned (cfg : config) :
  ensures (init_state cfg)
    (fun st =>
       Forall (fun p => energy p = 1.0 /\ 0.6 <= efficiency p /\ efficiency p <= 1.0)
         (st_prey st) /\
       Forall (fun p => energy p = 2.0 /\ 0.6 <= efficiency p /\ efficiency p <= 1.0)
         (st_predators st)).
Proof.
  unfold init_state.
  eapply ensures_bind; [apply ensures_any|]. intros _ _.
  eapply ensures_bind; [apply ensures_any|]. intros _ _.
  eapply ensures_bind; [apply spawn_ensures|]. intros prey [_ Hp].
  eapply ensures_bind; [apply spawn_ensures|]. intros predators [_ Hq].
  apply ensures_ret. simpl. split; assumption.
Qed.




(** *** Predators without prey *)

Lemma py_pow_unit (x : Q) (n : nat) : 0 <= x -> x <= 1 -> 0 <= py_pow x n /\ py_pow x n <= 1.
Proof.
  intros H0 H1. induction n as [|n [IH0 IH1]]; simpl; [lra|]. nra.
Qed.

Lemma py_pow_add (x : Q) (n m : nat) : py_pow x (n + m) == py_pow x n * py_pow x m.
Proof.
  induction n as [|n IH]; simpl; [ring|]. rewrite IH. ring.
Qed.

Lemma starved_by_17 (n : nat) : (17 <= n)%nat -> 2.0 * py_pow 0.92 n <= 0.5.
Proof.
  intros Hn. replace n with (17 + (n - 17))%nat by lia. rewrite py_pow_add.
  destruct (py_pow_unit 0.92 (n - 17)) as [H0 H1]; [lra|lra|].
  assert (H17 : py_pow 0.92 17 <= 0.25).
  { apply Qle_bool_iff. reflexivity. }
  assert (H17' : 0 <= py_pow 0.92 17) by (apply py_pow_unit; lra).
  nra.
Qed.

(** An individual whose energy does not exceed the reproduction threshold
    has no child; if it survives, it is with its energy decayed. *)
Lemma life_cycle_starving (sp : species) (p : Individual) (b : Q) :
  energy p <= b -> b <= repro_thresh sp -> 0 <= decay sp ->
  ensures (life_cycle sp p)
    (fun out => Forall (fun q => energy q <= b * decay sp) out /\
                (b <= min_energy sp -> out = [])).
Proof.
  intros Hp Hb Hd. unfold life_cycle, reproduce_one.
  destruct (energy p >? repro_thresh sp) eqn:E.
  { apply Qltb_lt in E. lra. }
  rewrite bind_ret_l. unfold survive_one.
  destruct (energy p >? min_energy sp) eqn:E2.
  - apply Qltb_lt in E2.
    eapply ensures_bind.
    + instantiate (1 := fun out => Forall (fun q => energy q <= b * decay sp) out).
      eapply ensures_bind; [apply ensures_any|]. intros r _.
      eapply ensures_bind; [apply ensures_any|]. intros q _.
      destruct (r <? surv_base sp + 0.2 * q); apply ensures_ret; [|constructor].
      constructor; [|constructor]. simpl. nra.
    + intros survivors Hs. apply ensures_ret. simpl. split; [exact Hs|].
      intros Hmin. lra.
  - rewrite bind_ret_l. apply ensures_ret. simpl. split; [constructor|reflexivity].
Qed.

Lemma reproduce_starving (sp : species) (pop : list Individual) (b : Q) :
  Forall (fun p => energy p <= b) pop -> b <= repro_thresh sp -> 0 <= decay sp ->
  ensures (reproduce sp pop)
    (fun new => Forall (fun q => energy q <= b * decay sp) new /\
                (b <= min_energy sp -> new = [])).
Proof.
  intros Hall Hb Hd. induction Hall as [|p rest Hp _ IH]; simpl.
  - apply ensures_ret. split; [constructor|reflexivity].
  - eapply ensures_bind; [apply (life_cycle_starving sp p b Hp Hb Hd)|].
    intros added [Ha Hae]. eapply ensures_bind; [apply IH|]. intros more [Hm Hme].
    apply ensures_ret. split; [apply Forall_app; split; assumption|].
    intros Hmin. rewrite (Hae Hmin), (Hme Hmin). reflexivity.
Qed.

Lemma predation_no_prey (cfg : config) (predators : list Individual) (g : G) :
  predation cfg predators [] g = Ok (predators, [], g).
Proof. destruct predators; reflexivity. Qed.

Lemma day_stages_starving (cfg : config) (day : Z) (st : sim_state) (b : Q) :
  st_prey st = [] -> Forall (fun p => energy p <= b) (st_predators st) ->
  b <= pred_repro_thresh cfg ->
  ensures (day_stages sin cfg day st)
    (fun out => out.1.1 = [] /\
                Forall (fun q => energy q <= b * 0.92) out.1.2 /\
                (b <= 0.5 -> out.1.2 = [])).
Proof.
  intros Hnil Hq Hb g out g' Hday.
  destruct (day_stages_inv cfg day st g out g' Hday)
    as (prey1 & prey2 & preds2 & preds3 & prey3 & g2 & g3 & g4 & g5 &
        Hfed & Hp2 & Hq2 & Hpred & Hrp & Hrq & _).
  rewrite Hnil in Hfed. inversion Hfed; subst prey1.
  apply Permutation_nil_r in Hp2. subst prey2.
  rewrite predation_no_prey in Hpred. injection Hpred as <- <- <-.
  simpl in Hrp. injection Hrp as <- <-. split; [reflexivity|].
  assert (Hq3 : Forall (fun p => energy p <= b) preds2) by (rewrite Hq2; exact Hq).
  apply (reproduce_starving (pred_species cfg) preds2 b Hq3 Hb) in Hrq; [|simpl; lra].
  exact Hrq.
Qed.

Lemma run_sim_starving (cfg : config) :
  (init_prey cfg <= 0)%Z -> 2.0 <= pred_repro_thresh cfg ->
  ensures (run_sim sin cfg)
    (fun h => exists rows, h = history_of rows /\
       forall k r, rows !! k = Some r -> (17 <= k)%nat -> row_pred_count r = 0%Z).
Proof.
  intros Hinit Hthr. eapply ensures_mono.
  - apply (run_sim_rel cfg
      (fun rows prey predators _ =>
         prey = [] /\
         Forall (fun p => energy p <= 2.0 * py_pow 0.92 (length rows)) predators /\
         forall k r, rows !! k = Some r -> (17 <= k)%nat -> row_pred_count r = 0%Z)).
    + intros day st rows (Hp & Hq & Hrows).
      assert (Hb : 2.0 * py_pow 0.92 (length rows) <= pred_repro_thresh cfg).
      { destruct (py_pow_unit 0.92 (length rows)); lra. }
      eapply ensures_mono; [apply (day_stages_starving cfg day st _ Hp Hq Hb)|].
      intros [[prey predators] resource] (Hp' & Hq' & Hdead). simpl in Hp', Hq', Hdead.
      subst prey. rewrite !safety_cap_take. split; [reflexivity|]. split.
      * apply Forall_take. eapply Forall_impl; [exact Hq'|].
        intros q Hq0. simpl in Hq0. rewrite length_app. simpl length.
        rewrite Nat.add_1_r. simpl py_pow. lra.
      * intros k r Hr Hk. apply lookup_snoc_Some in Hr as [[_ Hr]|[-> <-]].
        -- apply (Hrows k r Hr Hk).
        -- simpl. rewrite (Hdead (starved_by_17 _ Hk)). reflexivity.
    + eapply ensures_mono.
      * apply ensures_and; [apply init_state_ensures|apply init_state_spawned].
      * intros st [(_ & _ & Hlp & _) [_ Hq]]. split; [|split].
        -- apply length_zero_iff_nil. rewrite Hlp. lia.
        -- eapply Forall_impl; [exact Hq|]. intros p (He & _). rewrite He.
           simpl. lra.
        -- intros k r Hr. discriminate.
  - intros h (rows & _ & _ & _ & Hh & _ & _ & _ & Hrows). eauto.
Qed.

(** X6: predators cannot live on nothing. In a run that starts without prey
    and whose predator reproduction threshold is at least 2.0 (the initial
    predator energy), no predator is left from day 17 on: the recorded
    [pred_count] is 0 on every day of index 17 or more, whatever the random
    draws. Without a meal an energy only decays, by the factor 0.92 a day,
    and [2.0 * 0.92 ^ 17 < 0.5]. *)
Theorem predators_starve (cfg : config) (g : G) (h : history) (g' : G) :
  (init_prey cfg <= 0)%Z -> 2.0 <= pred_repro_thresh cfg ->
  run_sim sin cfg g = Ok (h, g') ->
  exists pred_counts : list Z,
    h !! "pred_count" = Some (VInt <$> pred_counts) /\
    forall k c, (17 <= k)%nat -> pred_counts !! k = Some c -> c = 0%Z.
Proof.
  intros Hinit Hthr Hrun.
  destruct (run_sim_starving cfg Hinit Hthr g h g' Hrun) as (rows & -> & Hrows).
  exists (row_pred_count <$> rows). split; [apply history_of_counts|].
  intros k c Hk Hc. apply list_lookup_fmap_Some in Hc as (r & -> & Hr).
  apply (Hrows k r Hr Hk).
Qed.

(** *** The resource from day to day *)

Lemma py_min_glb (a b z : Q) : z <= a -> z <= b -> z <= py_min a b.
Proof. intros Ha Hb. unfold py_min. destruct (b <? a); assumption. Qed.

Lemma prey_need_nonneg (cfg : config) (prey : list Individual) :
  0 <= prey_consumption cfg -> Forall viable prey -> 0 <= prey_need cfg prey.
Proof.
  intros Hc Hv. unfold prey_need.
  pose proof (py_sum_lower 0 0
    (map (fun p => prey_consumption cfg * (0.5 + efficiency p)) prey)) as Hsum.
  assert (Hall : Forall (fun x => 0 <= x)
            (map (fun p => prey_consumption cfg * (0.5 + efficiency p)) prey)).
  { apply (Forall_fmap (fun p => prey_consumption cfg * (0.5 + efficiency p))
             (fun x => 0 <= x)).
    eapply Forall_impl; [exact Hv|]. intros p Hp. unfold viable in Hp. simpl. nra. }
  specialize (Hsum Hall). lra.
Qed.

(** The shock and the damping only ever take resource away. *)
Lemma update_resource_upper (cfg : config) (day : Z) (resource available : Q) :
  0 <= regenerate cfg resource available ->
  ensures (update_resource sin cfg day resource available)
    (fun r => 0 <= r /\ r <= regenerate cfg resource available).
Proof.
  intros Hr. unfold update_resource. eapply ensures_bind.
  - instantiate (1 := fun r => 0 <= r /\ r <= regenerate cfg resource available).
    unfold shock. eapply ensures_bind; [apply ensures_any|]. intros r _.
    destruct (r <? shock_chance cfg); [|apply ensures_ret; lra].
    eapply ensures_bind; [apply (random_uniform_ensures 0.3 0.7); lra|].
    intros u [Hu1 Hu2]. apply ensures_ret. nra.
  - intros r1 [Hr1 Hr2]. rewrite carrying_run, bind_ret_l. apply ensures_ret.
    unfold damp. destruct (r1 >? _); lra.
Qed.

Lemma day_stages_resource_step (cfg : config) (day : Z) (st : sim_state) :
  0 <= resource_regen cfg -> 0 <= prey_consumption cfg ->
  0 <= st_resource st -> Forall viable (st_prey st) ->
  ensures (day_stages sin cfg day st)
    (fun out => 0 <= out.2 /\ out.2 <= st_resource st + resource_regen cfg).
Proof.
  intros Hregen Hcons Hres Hv g out g' Hday.
  destruct (day_stages_inv cfg day st g out g' Hday)
    as (prey1 & prey2 & preds2 & preds3 & prey3 & g2 & g3 & g4 & g5 &
        _ & _ & _ & _ & _ & _ & Hupd).
  pose proof (regenerate_exact cfg (st_resource st) (st_prey st)) as Hex.
  pose proof (py_min_l (st_resource st) (prey_need cfg (st_prey st))) as Hle.
  pose proof (py_min_glb (st_resource st) (prey_need cfg (st_prey st)) 0 Hres
                (prey_need_nonneg cfg _ Hcons Hv)) as Hge.
  fold (available_to_prey cfg (st_resource st) (st_prey st)) in Hle, Hge.
  assert (H0 : 0 <= regenerate cfg (st_resource st)
                      (available_to_prey cfg (st_resource st) (st_prey st))) by lra.
  destruct (update_resource_upper cfg day _ _ H0 _ _ _ Hupd) as [Ho1 Ho2].
  split; lra.
Qed.

Lemma run_sim_resource_steps (cfg : config) :
  0 <= init_resource cfg -> 0 <= resource_regen cfg -> 0 <= prey_consumption cfg ->
  ensures (run_sim sin cfg)
    (fun h => exists rows, h = history_of rows /\
       (forall r, rows !! O = Some r ->
          0 <= row_resource r /\ row_resource r <= init_resource cfg + resource_regen cfg) /\
       steps (fun a b => 0 <= row_resource b /\
                         row_resource b <= row_resource a + resource_regen cfg) rows).
Proof.
  intros Hinit Hregen Hcons. eapply ensures_mono.
  - apply (run_sim_rel cfg
      (fun rows prey predators resource =>
         Forall viable prey /\ 0 <= resource /\
         resource = match last rows with
                    | None => init_resource cfg
                    | Some r => row_resource r
                    end /\
         (forall r, rows !! O = Some r ->
            0 <= row_resource r /\
            row_resource r <= init_resource cfg + resource_regen cfg) /\
         steps (fun a b => 0 <= row_resource b /\
                           row_resource b <= row_resource a + resource_regen cfg) rows)).
    + intros day st rows (Hv & Hres & Hlast & Hfirst & Hsteps).
      eapply ensures_mono.
      * apply ensures_and;
          [apply (day_stages_resource_step cfg day st Hregen Hcons Hres Hv)
          |apply (day_stages_ensures sin cfg day st)].
      * intros [[prey predators] resource] [[Hr1 Hr2] (Hv' & _)]. simpl in Hr1, Hr2.
        rewrite last_snoc, safety_cap_take.
        split; [apply Forall_take, Hv', Hv|]. split; [exact Hr1|].
        split; [reflexivity|]. split.
        -- intros r Hr. destruct rows as [|r0 rows].
           ++ simpl in Hr. injection Hr as <-. simpl in *. rewrite Hlast in Hr2.
              split; assumption.
           ++ simpl in Hr. injection Hr as <-. apply Hfirst. reflexivity.
        -- apply steps_snoc; [exact Hsteps|]. intros a Ha. rewrite Ha in Hlast.
           simpl. rewrite Hlast in Hr2. split; assumption.
    + eapply ensures_mono; [apply init_state_ensures|].
      intros st (_ & Hres & _ & _ & Hv & _). simpl. rewrite Hres.
      split; [exact Hv|]. split; [exact Hinit|]. split; [reflexivity|]. split.
      * intros r Hr. discriminate.
      * apply steps_nil.
  - intros h (rows & _ & _ & _ & Hh & _ & _ & _ & _ & Hfirst & Hsteps). eauto.
Qed.

Lemma history_of_resource (rows : list day_row) :
  history_of rows !! "resource" = Some (VFloat <$> (row_resource <$> rows)).
Proof.
  unfold history_of. rewrite dict6_resource, list_fmap_compose. reflexivity.
Qed.

(** X7: the resource grows by at most [resource_regen] a day. When the
    initial resource, the regeneration and the prey consumption are not
    negative, the resource recorded on day 0 lies between 0 and
    [init_resource + resource_regen], and each later one between 0 and the
    previous one plus [resource_regen]: what the prey take, a shock and the
    carrying capacity only ever lower it. *)
Theorem resource_growth_bounded (cfg : config) (g : G) (h : history) (g' : G) :
  0 <= init_resource cfg -> 0 <= resource_regen cfg -> 0 <= prey_consumption cfg ->
  run_sim sin cfg g = Ok (h, g') ->
  exists resources : list Q,
    h !! "resource" = Some (VFloat <$> resources) /\
    (forall x, resources !! O = Some x ->
       0 <= x /\ x <= init_resource cfg + resource_regen cfg) /\
    steps (fun a b => 0 <= b /\ b <= a + resource_regen cfg) resources.
Proof.
  intros Hinit Hregen Hcons Hrun.
  destruct (run_sim_resource_steps cfg Hinit Hregen Hcons g h g' Hrun)
    as (rows & -> & Hfirst & Hsteps).
  exists (row_resource <$> rows). split; [apply history_of_resource|]. split.
  - intros x Hx. apply list_lookup_fmap_Some in Hx as (r & -> & Hr).
    apply (Hfirst r Hr).
  - apply steps_fmap. intros k a b Ha Hb. apply (Hsteps k a b Ha Hb).
Qed.

(** *** Shorter and longer runs *)

Lemma sim_loop_table (cfg : config) (ds : list Z) (st : sim_state) (rows : list day_row) :
  st_history st = history_of rows ->
  ensures (sim_loop sin cfg ds st)
    (fun st' => exists rows',
       st_history st' = history_of (rows ++ rows') /\ length rows' = length ds).
Proof.
  intros Hh. eapply ensures_mono.
  - apply (sim_loop_rel cfg (fun _ _ _ _ => True)); [|exact Hh|exact I].
    intros day st0 rows0 _. eapply ensures_mono; [apply ensures_any|].
    intros [[prey predators] resource] _. exact I.
  - intros st' (rows' & Hh' & Hlen & _). eauto.
Qed.

(** The number of days only decides how long the loop goes on. *)
Lemma predation_with_days (cfg : config) (n : Z) (predators prey : list Individual) g :
  predation (with_days cfg n) predators prey g = predation cfg predators prey g.
Proof.
  revert prey g. induction predators as [|pred rest IH]; intros prey g; simpl;
    [reflexivity|].
  destruct prey as [|target prey']; [reflexivity|].
  apply bind_ext. intros r g1.
  destruct (r <? 0.3 + 0.4 * efficiency pred); unfold bind; rewrite IH; reflexivity.
Qed.

Lemma day_stages_with_days (cfg : config) (n day : Z) (st : sim_state) g :
  day_stages sin (with_days cfg n) day st g = day_stages sin cfg day st g.
Proof.
  unfold day_stages. apply bind_ext. intros prey1 g1.
  apply bind_ext. intros prey2 g2. apply bind_ext. intros preds2 g3.
  unfold bind. rewrite predation_with_days. reflexivity.
Qed.

Lemma sim_loop_with_days (cfg : config) (n : Z) (ds : list Z) (st : sim_state) g :
  sim_loop sin (with_days cfg n) ds st g = sim_loop sin cfg ds st g.
Proof.
  revert st g. induction ds as [|day ds IH]; intros st g; simpl; [reflexivity|].
  unfold sim_day, bind. rewrite day_stages_with_days.
  destruct (day_stages sin cfg day st g) as [[[[prey predators] resource] g1]|];
    [|reflexivity].
  destruct (record_statistics _ _ _ _ _ _) as [[h g2]|]; [|reflexivity].
  apply IH.
Qed.

Lemma run_sim_with_days (cfg : config) (n : Z) (g : G) :
  run_sim sin (with_days cfg n) g =
  (st0 <- init_state cfg ;;
   st <- sim_loop sin cfg (py_range n) st0 ;;
   ret (st_history st)) g.
Proof.
  unfold run_sim. change (init_state (with_days cfg n)) with (init_state (G := G) cfg).
  apply bind_ext. intros st0 g0. unfold bind. simpl days.
  rewrite sim_loop_with_days. reflexivity.
Qed.

Lemma py_range_prefix (n m : Z) :
  (n <= m)%Z -> exists ds, py_range m = py_range n ++ ds.
Proof.
  intros Hnm. unfold py_range.
  exists (map Z.of_nat (seq (Z.to_nat n) (Z.to_nat m - Z.to_nat n))).
  rewrite <- map_app, <- seq_app. do 2 f_equal. lia.
Qed.

(** Each sequence of a history is one column of its table of rows. *)
Lemma history_of_column (rows : list day_row) (key : string) (l : list value) :
  history_of rows !! key = Some l ->
  exists f : day_row -> value,
    l = f <$> rows /\ forall rows', history_of rows' !! key = Some (f <$> rows').
Proof.
  intros Hl. destruct (decide (key ∈ metric_keys)) as [Hkey|Hkey].
  - unfold metric_keys in Hkey. unfold history_of in Hl.
    repeat (apply elem_of_cons in Hkey as [-> | Hkey]);
      [rewrite dict6_day in Hl|rewrite dict6_prey_count in Hl
      |rewrite dict6_pred_count in Hl|rewrite dict6_resource in Hl
      |rewrite dict6_prey_avg_eff in Hl|rewrite dict6_pred_avg_eff in Hl|];
      [injection Hl as <-; eexists; split; [reflexivity|]; intros rows';
       unfold history_of..|].
    + apply dict6_day.
    + apply dict6_prey_count.
    + apply dict6_pred_count.
    + apply dict6_resource.
    + apply dict6_prey_avg_eff.
    + apply dict6_pred_avg_eff.
    + apply elem_of_nil in Hkey. contradiction.
  - unfold history_of in Hl. rewrite dict6_other in Hl by exact Hkey. discriminate.
Qed.

(** X8: a shorter run records the beginning of a longer one. If the run of
    [m] days returns, so does the run of [n <= m] days with the same other
    arguments, and each of its sequences is the first [n] entries of the
    longer run's sequence under the same key: the number of days has no
    influence on what a day does. *)
Theorem shorter_run_is_prefix (cfg : config) (n m : Z) (g : G)
    (h2 : history) (g2 : G) :
  (n <= m)%Z ->
  run_sim sin (with_days cfg m) g = Ok (h2, g2) ->
  exists h1 g1,
    run_sim sin (with_days cfg n) g = Ok (h1, g1) /\
    forall key l2, h2 !! key = Some l2 -> h1 !! key = Some (take (Z.to_nat n) l2).
Proof.
  intros Hnm Hrun. rewrite run_sim_with_days in Hrun.
  destruct (py_range_prefix n m Hnm) as (ds & Hds). rewrite Hds in Hrun.
  apply bind_Ok in Hrun as (st0 & g0 & Hinit & Hrun).
  apply bind_Ok in Hrun as (st2 & g2' & Hloop & [= <- <-]).
  rewrite sim_loop_app in Hloop.
  apply bind_Ok in Hloop as (st1 & g1 & Hloop1 & Hloop2).
  destruct (init_state_ensures cfg g st0 g0 Hinit) as (Hh0 & _).
  destruct (sim_loop_table cfg (py_range n) st0 [] Hh0 g0 st1 g1 Hloop1)
    as (rows1 & Hh1 & Hlen1).
  destruct (sim_loop_table cfg ds st1 rows1 Hh1 g1 st2 g2' Hloop2)
    as (rows2 & Hh2 & _).
  simpl in Hh1. rewrite py_range_length in Hlen1.
  exists (st_history st1), g1. split.
  - rewrite run_sim_with_days. unfold bind at 1. rewrite Hinit.
    unfold bind at 1. rewrite Hloop1. reflexivity.
  - intros key l2 Hl2. rewrite Hh2 in Hl2. rewrite Hh1.
    destruct (history_of_column _ key l2 Hl2) as (f & -> & Hcol).
    rewrite Hcol, fmap_app, <- Hlen1, <- (length_fmap f rows1), take_app_length.
    reflexivity.
Qed.

(** *** The run that [main] starts *)

(** X9: the four command-line values cannot make the run of [main] fail
    except through the seed. With a seed in [[0, 2**32 - 1]] the call of
    [run_sim] in [main] returns, for any [days], [init_prey] and
    [init_pred], negative ones included, a history with [max(0, days)]
    entries under each key; with any other seed it raises [ValueError]. *)
Theorem main_run_outcome (arg_days arg_init_prey arg_init_pred arg_seed : Z) (g : G) :
  ((0 <= arg_seed <= 2 ^ 32 - 1)%Z ->
   exists h g',
     run_sim sin (main_config arg_days arg_init_prey arg_init_pred arg_seed) g =
       Ok (h, g') /\
     forall key, key ∈ metric_keys ->
       exists l, h !! key = Some l /\ length l = Z.to_nat arg_days) /\
  (~ (0 <= arg_seed <= 2 ^ 32 - 1)%Z ->
   run_sim sin (main_config arg_days arg_init_prey arg_init_pred arg_seed) g =
     Raise ValueError).
Proof.
  set (cfg := main_config arg_days arg_init_prey arg_init_pred arg_seed).
  split.
  - intros Hseed.
    assert (Hday : forall day st, True ->
      ensures (day_stages sin cfg day st)
        (fun out => let '(prey, predators, resource) := out in True /\ True)).
    { intros day st _. eapply ensures_mono; [apply ensures_any|].
      intros [[prey predators] resource] _. split; exact I. }
    assert (Hruns : forall day st, True -> succeeds (day_stages sin cfg day st)).
    { intros day st _. apply day_stages_succeeds; right; simpl; lra. }
    destruct (run_sim_succeeds sin cfg (fun _ _ => True) (fun _ => True) Hday
                (ensures_any _) Hruns Hseed g) as (h & g' & Hrun).
    exists h, g'. split; [exact Hrun|].
    apply (run_sim_shape sin cfg g h g' Hrun).
  - intros Hseed. apply bad_seed_raises. exact Hseed.
Qed.

(** *** A reproduction threshold of -1 *)

Lemma bind_raise_l {A B} (m : M G A) (k : A -> M G B) g e :
  m g = Raise e -> bind m k g = Raise e.
Proof. intros Hm. unfold bind. rewrite Hm. reflexivity. Qed.

Lemma bind_run {A B} (m : M G A) (k : A -> M G B) g a g1 :
  m g = Ok (a, g1) -> bind m k g = k a g1.
Proof. intros Hm. unfold bind. rewrite Hm. reflexivity. Qed.

Lemma bind_raise_r {A B} (m : M G A) (k : A -> M G B) g a g1 e :
  m g = Ok (a, g1) -> k a g1 = Raise e -> bind m k g = Raise e.
Proof. intros Hm Hk. unfold bind. rewrite Hm. exact Hk. Qed.

(** The reproduction branch always returns; the parent leaves it with its
    energy, or with its energy times the reproduction cost. *)
Lemma reproduce_one_run (sp : species) (p : Individual) g :
  exists children p' g1,
    reproduce_one sp p g = Ok (children, p', g1) /\
    (energy p' = energy p \/ energy p' = energy p * repro_cost sp).
Proof.
  unfold reproduce_one. destruct (energy p >? repro_thresh sp).
  - unfold bind at 1. unfold random_random at 1. destruct (random g) as [r g1].
    destruct (r <? repro_prob sp).
    + unfold random_uniform, bind, random_random. destruct (random g1) as [r2 g2].
      eexists _, _, _. split; [reflexivity|]. right. reflexivity.
    + eexists _, _, _. split; [reflexivity|]. left. reflexivity.
  - eexists _, _, _. split; [reflexivity|]. left. reflexivity.
Qed.

Lemma survive_one_div_zero (sp : species) (p : Individual) g :
  repro_thresh sp + 1 == 0 -> min_energy sp < energy p ->
  survive_one sp p g = Raise ZeroDivisionError.
Proof.
  intros Hz He. unfold survive_one. rewrite (proj2 (Qltb_lt _ _) He).
  unfold bind, random_random. destruct (random g) as [r g1].
  unfold py_div. rewrite (proj2 (Qeq_bool_iff _ _) Hz). reflexivity.
Qed.

Lemma survive_one_outcome (sp : species) (p : Individual) g :
  (exists out g', survive_one sp p g = Ok (out, g')) \/
  survive_one sp p g = Raise ZeroDivisionError.
Proof.
  unfold survive_one. destruct (energy p >? min_energy sp); [|left; eauto].
  unfold bind, random_random. destruct (random g) as [r g1].
  unfold py_div. destruct (Qeq_bool (repro_thresh sp + 1) 0); [right; reflexivity|].
  simpl. destruct (r <? _); left; eauto.
Qed.

Lemma life_cycle_div_zero (sp : species) (p : Individual) g :
  repro_thresh sp + 1 == 0 ->
  min_energy sp < energy p -> min_energy sp < energy p * repro_cost sp ->
  life_cycle sp p g = Raise ZeroDivisionError.
Proof.
  intros Hz He Hc.
  destruct (reproduce_one_run sp p g) as (children & p' & g1 & Hr & Hp').
  unfold life_cycle. eapply bind_raise_r; [exact Hr|]. simpl.
  apply bind_raise_l, survive_one_div_zero; [exact Hz|].
  destruct Hp' as [-> | ->]; assumption.
Qed.

Lemma life_cycle_outcome (sp : species) (p : Individual) g :
  (exists out g', life_cycle sp p g = Ok (out, g')) \/
  life_cycle sp p g = Raise ZeroDivisionError.
Proof.
  destruct (reproduce_one_run sp p g) as (children & p' & g1 & Hr & _).
  unfold life_cycle. rewrite (bind_run _ _ _ _ _ Hr).
  destruct (survive_one_outcome sp p' g1) as [(out & g' & Hs)|Hs].
  - left. rewrite (bind_run _ _ _ _ _ Hs). eauto.
  - right. apply bind_raise_l, Hs.
Qed.

(** The only exception that a reproduction loop can raise. *)
Lemma reproduce_outcome (sp : species) (pop : list Individual) g :
  (exists new g', reproduce sp pop g = Ok (new, g')) \/
  reproduce sp pop g = Raise ZeroDivisionError.
Proof.
  revert g. induction pop as [|p rest IH]; intros g; simpl; [left; eauto|].
  destruct (life_cycle_outcome sp p g) as [(added & g1 & Ha)|Ha];
    [|right; apply bind_raise_l, Ha].
  rewrite (bind_run _ _ _ _ _ Ha).
  destruct (IH g1) as [(more & g2 & Hm)|Hm].
  - left. rewrite (bind_run _ _ _ _ _ Hm). eauto.
  - right. apply bind_raise_l, Hm.
Qed.

Lemma reproduce_div_zero (sp : species) (p : Individual) (rest : list Individual) g :
  repro_thresh sp + 1 == 0 ->
  min_energy sp < energy p -> min_energy sp < energy p * repro_cost sp ->
  reproduce sp (p :: rest) g = Raise ZeroDivisionError.
Proof.
  intros Hz He Hc. simpl. apply bind_raise_l, life_cycle_div_zero; assumption.
Qed.

(** What is left of a day once the predation has returned. *)
Lemma day_stages_after_predation (cfg : config) (day : Z) (st : sim_state) g :
  exists prey1 prey2 preds2 preds3 prey3 g3,
    Forall2 (fed (available_to_prey cfg (st_resource st) (st_prey st))
                 (total_shares (st_prey st))) (st_prey st) prey1 /\
    prey2 ≡ₚ prey1 /\ preds2 ≡ₚ st_predators st /\
    Forall2 (hunted cfg) preds2 preds3 /\
    (exists k, prey3 = drop k prey2 /\ (k <= length preds2)%nat) /\
    day_stages sin cfg day st g =
    (new_prey <- reproduce (prey_species cfg) prey3 ;;
     new_preds <- reproduce (pred_species cfg) preds3 ;;
     resource <- update_resource sin cfg day (st_resource st)
                   (available_to_prey cfg (st_resource st) (st_prey st)) ;;
     ret (new_prey, new_preds, resource)) g3.
Proof.
  unfold day_stages.
  destruct (allocate_run (G := G) cfg (st_resource st) (st_prey st))
    as (prey1 & -> & Hfed).
  rewrite bind_ret_l.
  destruct (random_shuffle_succeeds prey1 g) as (prey2 & g1 & Hs1).
  destruct (random_shuffle_succeeds (st_predators st) g1) as (preds2 & g2 & Hs2).
  destruct (predation_succeeds cfg preds2 prey2 g2) as ([preds3 prey3] & g3 & Hpred).
  destruct (predation_hunted cfg preds2 prey2 g2 _ g3 Hpred)
    as [Hh (k & Hk & Hk1 & _)]. simpl in Hh, Hk.
  exists prey1, prey2, preds2, preds3, prey3, g3.
  split; [exact Hfed|].
  split; [apply (random_shuffle_ensures _ g _ g1 Hs1)|].
  split; [apply (random_shuffle_ensures _ g1 _ g2 Hs2)|].
  split; [exact Hh|]. split; [eauto|].
  rewrite (bind_run _ _ _ _ _ Hs1), (bind_run _ _ _ _ _ Hs2),
    (bind_run _ _ _ _ _ Hpred). reflexivity.
Qed.

Lemma day_stages_pred_div_zero (cfg : config) (day : Z) (st : sim_state) g :
  pred_repro_thresh cfg == -1 -> 0 <= pred_consumption cfg ->
  st_predators st <> [] ->
  Forall (fun p => 1 < energy p /\ 0 <= efficiency p) (st_predators st) ->
  day_stages sin cfg day st g = Raise ZeroDivisionError.
Proof.
  intros Hz Hc Hne Hall.
  destruct (day_stages_after_predation cfg day st g)
    as (prey1 & prey2 & preds2 & preds3 & prey3 & g3 &
        _ & _ & Hq2 & Hh & _ & ->).
  destruct (reproduce_outcome (prey_species cfg) prey3 g3) as [(new & g4 & Hrp)|Hrp];
    [|apply bind_raise_l, Hrp].
  eapply bind_raise_r; [exact Hrp|]. apply bind_raise_l.
  rewrite <- Hq2 in Hall.
  assert (Hne2 : preds2 <> []).
  { intros ->. apply Permutation_nil_l in Hq2. symmetry in Hq2. contradiction. }
  destruct Hh as [|p p' rest rest' [Heff He] _]; [contradiction|].
  apply Forall_cons in Hall as [[Hp1 Hp2] _].
  assert (He' : energy p <= energy p').
  { destruct He as [-> | ->]; [lra|]. nra. }
  apply reproduce_div_zero; simpl; lra.
Qed.

(** Feeding from a pool that is not negative lowers no energy. *)
Lemma fed_energy_lower (a t : Q) (l l' : list Individual) :
  0 <= a -> 0 < t -> Forall2 (fed a t) l l' ->
  Forall (fun p => 1 <= energy p /\ viable p) l -> Forall (fun p => 1 <= energy p) l'.
Proof.
  intros Ha Ht Hfed. induction Hfed as [|p p' l l' [Heff He] _ IH]; intros Hall;
    [constructor|].
  apply Forall_cons in Hall as [[Hp Hvp] Hall]. constructor; [|apply IH, Hall].
  rewrite He. unfold viable in Hvp.
  assert (0 <= (0.5 + efficiency p) / t).
  { apply Qle_shift_div_l; [exact Ht|]. lra. }
  assert (0 <= a * ((0.5 + efficiency p) / t)) by nra.
  nra.
Qed.

Lemma day_stages_prey_div_zero (cfg : config) (day : Z) (st : sim_state) g :
  prey_repro_thresh cfg == -1 -> 0 <= prey_consumption cfg -> 0 <= st_resource st ->
  (length (st_predators st) < length (st_prey st))%nat ->
  Forall (fun p => 1 <= energy p /\ viable p) (st_prey st) ->
  day_stages sin cfg day st g = Raise ZeroDivisionError.
Proof.
  intros Hz Hc Hres Hlen Hall.
  destruct (day_stages_after_predation cfg day st g)
    as (prey1 & prey2 & preds2 & preds3 & prey3 & g3 &
        Hfed & Hp2 & Hq2 & _ & (k & Hk & Hk1) & ->).
  apply bind_raise_l.
  assert (Hv : Forall viable (st_prey st)).
  { eapply Forall_impl; [exact Hall|]. intros p [_ Hp]. exact Hp. }
  assert (Hne : st_prey st <> []).
  { intros Hnil. rewrite Hnil in Hlen. simpl in Hlen. lia. }
  pose proof (shares_sum_positive _ Hv Hne) as Hpos.
  assert (Htot : 0 < total_shares (st_prey st)).
  { rewrite total_shares_sum; [exact Hpos|]. lra. }
  pose proof (py_min_glb (st_resource st) (prey_need cfg (st_prey st)) 0 Hres
                (prey_need_nonneg cfg _ Hc Hv)) as Hav.
  fold (available_to_prey cfg (st_resource st) (st_prey st)) in Hav.
  pose proof (fed_energy_lower _ _ _ _ Hav Htot Hfed Hall) as H1.
  rewrite <- Hp2 in H1.
  assert (Hl3 : (0 < length prey3)%nat).
  { rewrite Hk, length_drop, Hp2, <- (Forall2_length _ _ _ Hfed).
    rewrite Hq2 in Hk1. lia. }
  assert (H3 : Forall (fun p => 1 <= energy p) prey3).
  { rewrite Hk. apply Forall_drop, H1. }
  destruct prey3 as [|p rest]; [simpl in Hl3; lia|].
  apply Forall_cons in H3 as [Hp _].
  apply reproduce_div_zero; simpl; lra.
Qed.

Lemma py_range_pos (n : Z) : (0 < n)%Z -> exists ds, py_range n = 0%Z :: ds.
Proof.
  intros Hn. unfold py_range. destruct (Z.to_nat n) as [|k] eqn:E; [lia|].
  simpl. eauto.
Qed.

(** A run whose first day raises. *)
Lemma run_sim_first_day_raises (cfg : config) (g : G) (e : exn) :
  seed_ok cfg -> (0 < days cfg)%Z ->
  (forall st g0, init_state cfg g = Ok (st, g0) ->
     day_stages sin cfg 0 st g0 = Raise e) ->
  run_sim sin cfg g = Raise e.
Proof.
  intros Hseed Hdays Hday.
  destruct (init_state_succeeds cfg Hseed g) as (st0 & g0 & Hinit).
  destruct (py_range_pos _ Hdays) as (ds & Hds).
  unfold run_sim. eapply bind_raise_r; [exact Hinit|]. apply bind_raise_l.
  rewrite Hds. simpl. apply bind_raise_l. unfold sim_day. apply bind_raise_l.
  apply (Hday st0 g0 Hinit).
Qed.

(** X10: a predator reproduction threshold of -1 stops the run on its first
    day. With a seed that [numpy] accepts, at least one day and at least one
    initial predator, and a [pred_consumption] that is not negative,
    [run_sim] raises [ZeroDivisionError] whatever the random draws: every
    predator has an energy above 0.5 when its survival is decided, and the
    survival test divides by [pred_repro_thresh + 1]. *)
Theorem pred_thresh_minus_one_raises (cfg : config) (g : G) :
  seed_ok cfg -> (0 < days cfg)%Z -> (0 < init_pred cfg)%Z ->
  pred_repro_thresh cfg == -1 -> 0 <= pred_consumption cfg ->
  run_sim sin cfg g = Raise ZeroDivisionError.
Proof.
  intros Hseed Hdays Hpred Hz Hc.
  apply run_sim_first_day_raises; [exact Hseed|exact Hdays|].
  intros st g0 Hinit.
  destruct (init_state_ensures cfg g st g0 Hinit) as (_ & _ & _ & Hlq & _).
  destruct (init_state_spawned cfg g st g0 Hinit) as [_ Hq].
  apply day_stages_pred_div_zero; [exact Hz|exact Hc| |].
  - intros Hnil. rewrite Hnil in Hlq. simpl in Hlq. lia.
  - eapply Forall_impl; [exact Hq|]. intros p (He & Hlo & _). rewrite He. lra.
Qed.

(** X11: a prey reproduction threshold of -1 stops the run on its first day
    as soon as the prey outnumber the predators. With a seed that [numpy]
    accepts, at least one day, more initial prey than initial predators, and
    an initial resource and a [prey_consumption] that are not negative,
    [run_sim] raises [ZeroDivisionError] whatever the random draws: a prey
    escapes the predation, and its survival test divides by
    [prey_repro_thresh + 1]. *)
Theorem prey_thresh_minus_one_raises (cfg : config) (g : G) :
  seed_ok cfg -> (0 < days cfg)%Z ->
  (0 < init_prey cfg)%Z -> (init_pred cfg < init_prey cfg)%Z ->
  prey_repro_thresh cfg == -1 ->
  0 <= init_resource cfg -> 0 <= prey_consumption cfg ->
  run_sim sin cfg g = Raise ZeroDivisionError.
Proof.
  intros Hseed Hdays Hprey Hmore Hz Hres Hc.
  apply run_sim_first_day_raises; [exact Hseed|exact Hdays|].
  intros st g0 Hinit.
  destruct (init_state_ensures cfg g st g0 Hinit) as (_ & Hr & Hlp & Hlq & _).
  destruct (init_state_spawned cfg g st g0 Hinit) as [Hp _].
  apply day_stages_prey_div_zero; [exact Hz|exact Hc|rewrite Hr; exact Hres|lia|].
  eapply Forall_impl; [exact Hp|]. intros p (He & Hlo & _). rewrite He.
  unfold viable. split; lra.
Qed.

End Further.

(** ** The further properties on concrete runs *)

(** The predation of day 0 of the demo run. *)
Lemma predation_accounting_witness :
  let predators := st_predators demo_start.1 in
  let prey := st_prey demo_start.1 in
  Forall2 (hunted demo_config) predators demo_hunt.1.1 /\
  (exists k, demo_hunt.1.2 = drop k prey /\
             (k <= length predators)%nat /\ (k <= length prey)%nat /\
             (length demo_hunt.1.2 + k = length prey)%nat) /\
  (prey = [] -> demo_hunt.1.1 = predators /\ demo_hunt.2 = demo_start.2).
Proof.
  apply (predation_accounting (H := scripted demo_book) demo_config
           (st_predators demo_start.1) (st_prey demo_start.1) demo_start.2
           demo_hunt.1.1 demo_hunt.1.2 demo_hunt.2).
  reflexivity.
Defined.

Example demo_hunt_counts :
  length (st_predators demo_start.1) = 2%nat /\ length (st_prey demo_start.1) = 3%nat /\
  length demo_hunt.1.2 = 2%nat.
Proof. repeat split; reflexivity. Qed.

(** The energies that day 1 of the demo run starts with. *)
Lemma energy_floor_witness :
  Forall (fun p => 0.09 < energy p) (st_prey demo_next.1) /\
  Forall (fun p => 0.46 < energy p) (st_predators demo_next.1).
Proof.
  apply (energy_floor (H := scripted demo_book) sin_series demo_config 1 []
           demo_next.1 demo_next.2).
  reflexivity.
Defined.

(** The counts of the demo run. *)
Lemma growth_bounded_witness :
  exists prey_counts pred_counts : list Z,
    demo_run.1 !! "prey_count" = Some (VInt <$> prey_counts) /\
    demo_run.1 !! "pred_count" = Some (VInt <$> pred_counts) /\
    (forall c, prey_counts !! O = Some c ->
       (0 <= c <= 2 * Z.max 0 (init_prey demo_config))%Z) /\
    steps (doubles 2000) prey_counts /\
    (forall c, pred_counts !! O = Some c ->
       (0 <= c <= 2 * Z.max 0 (init_pred demo_config))%Z) /\
    steps (doubles 500) pred_counts.
Proof.
  apply (growth_bounded (H := scripted demo_book) sin_series demo_config []
           demo_run.1 demo_run.2).
  reflexivity.
Defined.

(** The predators of the demo run are gone from day 1 on. *)
Lemma extinction_permanent_witness :
  exists prey_counts pred_counts : list Z,
    demo_run.1 !! "prey_count" = Some (VInt <$> prey_counts) /\
    demo_run.1 !! "pred_count" = Some (VInt <$> pred_counts) /\
    (forall i j c, (i <= j)%nat ->
       prey_counts !! i = Some 0%Z -> prey_counts !! j = Some c -> c = 0%Z) /\
    (forall i j c, (i <= j)%nat ->
       pred_counts !! i = Some 0%Z -> pred_counts !! j = Some c -> c = 0%Z).
Proof.
  apply (extinction_permanent (H := scripted demo_book) sin_series demo_config []
           demo_run.1 demo_run.2).
  reflexivity.
Defined.


(** The starved run: two predators, no prey, twenty days. *)
Lemma predators_starve_witness :
  exists pred_counts : list Z,
    starved_run.1 !! "pred_count" = Some (VInt <$> pred_counts) /\
    forall k c, (17 <= k)%nat -> pred_counts !! k = Some c -> c = 0%Z.
Proof.
  apply (predators_starve (H := scripted no_draws) sin_series starved_config []
           starved_run.1 starved_run.2).
  - simpl. lia.
  - apply Qle_bool_iff. reflexivity.
  - reflexivity.
Defined.

(** With every survival draw in their favour the two predators are recorded
    on the days 0 to 16 and on no later day: the bound of 17 days is met. *)
Example starved_run_counts :
  starved_run.1 !! "pred_count" =
  Some (VInt <$> (replicate 17 2%Z ++ replicate 3 0%Z)).
Proof. reflexivity. Qed.

(** The resource of the demo run. *)
Lemma resource_growth_bounded_witness :
  exists resources : list Q,
    demo_run.1 !! "resource" = Some (VFloat <$> resources) /\
    (forall x, resources !! O = Some x ->
       0 <= x /\ x <= init_resource demo_config + resource_regen demo_config) /\
    steps (fun a b => 0 <= b /\ b <= a + resource_regen demo_config) resources.
Proof.
  apply (resource_growth_bounded (H := scripted demo_book) sin_series demo_config []
           demo_run.1 demo_run.2).
  - apply Qle_bool_iff. reflexivity.
  - apply Qle_bool_iff. reflexivity.
  - apply Qle_bool_iff. reflexivity.
  - reflexivity.
Defined.

(** The first day of the demo run, run alone. *)
Lemma shorter_run_is_prefix_witness :
  exists h1 g1,
    run_sim (H := scripted demo_book) sin_series (with_days demo_config 1) [] =
      Ok (h1, g1) /\
    forall key l2, demo_run.1 !! key = Some l2 ->
      h1 !! key = Some (take (Z.to_nat 1) l2).
Proof.
  apply (shorter_run_is_prefix (H := scripted demo_book) sin_series demo_config 1 3 []
           demo_run.1 demo_run.2).
  - lia.
  - reflexivity.
Defined.

Example demo_first_day_counts :
  run_sim (H := scripted demo_book) sin_series (with_days demo_config 1) [] =
    Ok demo_first_day /\
  demo_first_day.1 !! "prey_count" = Some [VInt 2] /\
  demo_first_day.1 !! "pred_count" = Some [VInt 1].
Proof. repeat split; reflexivity. Qed.

(** The run of [main] with its defaults, and with the seed [-1]. *)
Lemma main_run_outcome_witness :
  (exists h g',
     run_sim (H := scripted mersenne_draws) sin_series (main_config 200 80 15 42) [] =
       Ok (h, g') /\
     forall key, key ∈ metric_keys ->
       exists l, h !! key = Some l /\ length l = Z.to_nat 200) /\
  run_sim (H := scripted mersenne_draws) sin_series (main_config 200 80 15 (-1)) [] =
    Raise ValueError.
Proof.
  split.
  - apply (proj1 (main_run_outcome (H := scripted mersenne_draws) sin_series
                    200 80 15 42 [])). lia.
  - apply (proj2 (main_run_outcome (H := scripted mersenne_draws) sin_series
                    200 80 15 (-1) [])). lia.
Defined.

(** The defaults with a predator threshold of [-1]. *)
Lemma pred_thresh_minus_one_raises_witness :
  run_sim (H := scripted mersenne_draws) sin_series fragile_pred_config [] =
  Raise ZeroDivisionError.
Proof.
  apply (pred_thresh_minus_one_raises (H := scripted mersenne_draws) sin_series
           fragile_pred_config []).
  - unfold seed_ok. simpl. lia.
  - simpl. lia.
  - simpl. lia.
  - reflexivity.
  - apply Qle_bool_iff. reflexivity.
Defined.

(** The defaults with a prey threshold of [-1]. *)
Lemma prey_thresh_minus_one_raises_witness :
  run_sim (H := scripted mersenne_draws) sin_series fragile_prey_config [] =
  Raise ZeroDivisionError.
Proof.
  apply (prey_thresh_minus_one_raises (H := scripted mersenne_draws) sin_series
           fragile_prey_config []).
  - unfold seed_ok. simpl. lia.
  - simpl. lia.
  - simpl. lia.
  - simpl. lia.
  - reflexivity.
  - apply Qle_bool_iff. reflexivity.
  - apply Qle_bool_iff. reflexivity.
Defined.
